(** * The request pipeline assembled by [src/app.js]

    [app.js] builds one Express application: a stack of middleware layers
    registered with [app.use], in the order of the file.  The development
    below embeds

    - the values that travel through the file (JavaScript objects that end
      up as JSON, requests, responses, response headers);
    - the dispatch loop of the Express router, which decides which of the
      registered layers see a request;
    - every layer of [app.js], line by line, as a handler of that loop;

    and then proves the properties of the composed pipeline.

    Code that [app.js] only imports is not part of the file.  The modules of
    this repository ([local-error-handler], [middleware/verify-jwt],
    [middleware/request-logger], the route modules, the GraphQL schema) and
    the data that only exists at run time (configuration, files on disk,
    token validity) are fields of the record [World]; every theorem holds
    for all worlds, under the stated contract where one is needed.  The
    packages from npm ([express], [helmet], [cors], [body-parser], ...) are
    modelled by what they do for the options [app.js] passes them.

    Two statements of [app.js] are outside the path of a request and have
    no counterpart below: the registration of the passport strategy
    (line 44) and [app.listen] (lines 100-105). *)

From Stdlib Require Import ZArith Ascii String.
From stdpp Require Import base option list strings gmap.


(** ** Strings and request targets *)

Module Url.

(** Case folding of the letters A-Z, as done by a regular expression
  compiled with the flag [i]. *)
Definition lower (c : ascii) : ascii :=
let n := nat_of_ascii c in
if (65 <=? n)%nat && (n <=? 90)%nat then ascii_of_nat (n + 32) else c.

Definition same_letter (a b : ascii) : bool := Ascii.eqb (lower a) (lower b).

(** [str.substr(n)] *)
Fixpoint skip (n : nat) (s : string) : string :=
match n, s with
| O, _ => s
| S _, EmptyString => EmptyString
| S n', String _ s' => skip n' s'
end.

(** [str.substring(0, n)] *)
Fixpoint keep (n : nat) (s : string) : string :=
match n, s with
| O, _ => EmptyString
| S _, EmptyString => EmptyString
| S n', String c s' => String c (keep n' s')
end.

Definition starts_with_slash (s : string) : bool :=
match s with
| String c _ => Ascii.eqb c "/"
| EmptyString => false
end.

Definition ends_with_slash (s : string) : bool :=
starts_with_slash (skip (String.length s - 1) s).

(** The path of an origin-form request target: everything before the
  query string (or fragment).  This is what [parseurl(req).pathname]
  returns for the targets an HTTP request line can carry. *)
Fixpoint pathname (u : string) : string :=
match u with
| EmptyString => EmptyString
| String c u' =>
    if Ascii.eqb c "?" || Ascii.eqb c "#" then EmptyString
    else String c (pathname u')
end.

(** Remainder of [s] after the letters of [p], compared without case. *)
Fixpoint strip_ci (p s : string) : option string :=
match p with
| EmptyString => Some s
| String a p' =>
    match s with
    | EmptyString => None
    | String b s' => if same_letter a b then strip_ci p' s' else None
    end
end.

(** What the tail [\/?(?=\/|$)] of a mount-path regular expression
  consumes of the text that follows the mount path: [None] when the
  text does not start at a segment boundary. *)
Definition boundary (rest : string) : option nat :=
match rest with
| EmptyString => Some 0%nat
| String c rest' =>
    if Ascii.eqb c "/" then
      match rest' with
      | EmptyString => Some 1%nat
      | String d _ => if Ascii.eqb d "/" then Some 1%nat else Some 0%nat
      end
    else None
end.

(** [layer.regexp.exec(path)[0]] for a layer registered with
  [app.use(mount, fn)]: Express compiles [mount] with
  [{ sensitive: false, strict: false, end: false }], that is to
  [^<mount>\/?(?=\/|$)] with flag [i].  The mount paths of [app.js] are
  literal (no parameters, no wildcard, no trailing slash). *)
Definition match_mount (mount path : string) : option string :=
match strip_ci mount path with
| Some rest =>
    match boundary rest with
    | Some k => Some (keep (String.length mount + k) path)
    | None => None
    end
| None => None
end.

End Url.

(** ** JavaScript values *)

Module Js.

(** The objects of [app.js] that are logged or sent as JSON.  An object
  keeps its properties in insertion order, which is the order
  [JSON.stringify] writes them in. *)
#[warnings="-register-all"]
Inductive value : Type :=
| Null
| Bool (b : bool)
| Num (n : Z)
| Str (s : string)
| Arr (items : list value)
| Obj (props : list (string * value)).

(** [o[k]] *)
Fixpoint prop (k : string) (props : list (string * value)) : option value :=
match props with
| [] => None
| (k', v) :: rest => if String.eqb k k' then Some v else prop k rest
end.

Definition get (k : string) (v : value) : option value :=
match v with
| Obj props => prop k props
| _ => None
end.

(** [a[i]] *)
Definition item (i : nat) (v : value) : option value :=
match v with
| Arr items => items !! i
| _ => None
end.

Definition is_digit (c : ascii) : bool :=
let n := nat_of_ascii c in (48 <=? n)%nat && (n <=? 57)%nat.

Fixpoint digits (acc : Z) (s : string) : option Z :=
match s with
| EmptyString => Some acc
| String c s' =>
    if is_digit c then digits (10 * acc + (Z.of_nat (nat_of_ascii c) - 48)) s'
    else None
end.

(** [x | 0] on an integer: reduction to a signed 32-bit value. *)
Definition to_int32 (z : Z) : Z :=
((z + 2 ^ 31) mod 2 ^ 32 - 2 ^ 31)%Z.

(** The status line Node writes for [res.statusCode = v]: [writeHead]
  computes [v | 0] and refuses a result outside 100..999.  Numbers and
  strings of at most 15 decimal digits are covered; [None] stands for a
  refused code or a value outside this fragment. *)
Definition wire_status (v : value) : option Z :=
let checked (n : Z) :=
  let c := to_int32 n in
  if (100 <=? c)%Z && (c <=? 999)%Z then Some c else None in
match v with
| Num n => checked n
| Str s =>
    match s with
    | EmptyString => None
    | _ => if (String.length s <=? 15)%nat then digits 0 s ≫= checked else None
    end
| _ => None
end.

Definition quote : string := String "034" EmptyString.
Definition backslash : string := String "092" EmptyString.

Definition hex_digit (n : nat) : ascii :=
if (n <? 10)%nat then ascii_of_nat (48 + n) else ascii_of_nat (87 + n).

(** The escapes [JSON.stringify] applies inside a string literal. *)
Definition escape_char (c : ascii) : string :=
let n := nat_of_ascii c in
if (n =? 34)%nat then backslash +:+ quote
else if (n =? 92)%nat then backslash +:+ backslash
else if (n =? 8)%nat then backslash +:+ "b"
else if (n =? 9)%nat then backslash +:+ "t"
else if (n =? 10)%nat then backslash +:+ "n"
else if (n =? 12)%nat then backslash +:+ "f"
else if (n =? 13)%nat then backslash +:+ "r"
else if (n <? 32)%nat then
  backslash +:+ "u00" +:+ String (hex_digit (n / 16)) (String (hex_digit (n mod 16)) EmptyString)
else String c EmptyString.

Fixpoint escape (s : string) : string :=
match s with
| EmptyString => EmptyString
| String c s' => escape_char c +:+ escape s'
end.

Definition literal (s : string) : string := quote +:+ escape s +:+ quote.

Fixpoint decimal_nat (fuel n : nat) (acc : string) : string :=
match fuel with
| O => acc
| S fuel' =>
    let acc' := String (ascii_of_nat (48 + n mod 10)) acc in
    if (n <? 10)%nat then acc' else decimal_nat fuel' (n / 10) acc'
end.

Definition decimal (z : Z) : string :=
let n := Z.to_nat (Z.abs z) in
(if (z <? 0)%Z then "-" else EmptyString) +:+ decimal_nat (S n) n EmptyString.

Definition commas (parts : list string) : string :=
match parts with
| [] => EmptyString
| p :: ps => fold_left (fun acc x => acc +:+ "," +:+ x) ps p
end.

(** [JSON.stringify(v)], the text [res.json] sends. *)
Fixpoint stringify (v : value) : string :=
match v with
| Null => "null"
| Bool true => "true"
| Bool false => "false"
| Num n => decimal n
| Str s => literal s
| Arr items => "[" +:+ commas (map stringify items) +:+ "]"
| Obj props =>
    "{" +:+ commas (map (fun kv => literal (fst kv) +:+ ":" +:+ stringify (snd kv)) props)
        +:+ "}"
end.

End Js.

(** ** Requests and responses *)

Inductive Method : Type := GET | HEAD | POST | PUT | PATCH | DELETE | OPTIONS.

(** The request object [req].  [headers] is keyed by lower-case header
    name, as Node delivers it; [rawBody] is the payload before parsing;
    [body], [cookies] and [user] are the properties that middleware of the
    pipeline attaches, absent ([None]) on arrival. *)
Record Request : Type := mkRequest {
  method : Method;
  url : string;
  baseUrl : string;
  originalUrl : string;
  headers : gmap string string;
  rawBody : string;
  body : option Js.value;
  cookies : option Js.value;
  user : option Js.value
}.

Definition incoming (m : Method) (target : string) (hs : gmap string string)
    (payload : string) : Request :=
  {| method := m; url := target; baseUrl := EmptyString; originalUrl := target;
     headers := hs; rawBody := payload; body := None; cookies := None;
     user := None |}.

Definition set_url (u b : string) (r : Request) : Request :=
  {| method := method r; url := u; baseUrl := b; originalUrl := originalUrl r;
     headers := headers r; rawBody := rawBody r; body := body r;
     cookies := cookies r; user := user r |}.

Definition set_body (v : Js.value) (r : Request) : Request :=
  {| method := method r; url := url r; baseUrl := baseUrl r;
     originalUrl := originalUrl r; headers := headers r; rawBody := rawBody r;
     body := Some v; cookies := cookies r; user := user r |}.

Definition set_cookies (v : Js.value) (r : Request) : Request :=
  {| method := method r; url := url r; baseUrl := baseUrl r;
     originalUrl := originalUrl r; headers := headers r; rawBody := rawBody r;
     body := body r; cookies := Some v; user := user r |}.

Definition set_user (v : Js.value) (r : Request) : Request :=
  {| method := method r; url := url r; baseUrl := baseUrl r;
     originalUrl := originalUrl r; headers := headers r; rawBody := rawBody r;
     body := body r; cookies := cookies r; user := Some v |}.

Inductive Payload : Type :=
| NoBody
| JsonBody (v : Js.value)
| RawBody (s : string).

(** What has been written when a handler ends the response: the value
    assigned to [res.statusCode], the response headers set so far, and the
    body. *)
Record Response : Type := mkResponse {
  status : Js.value;
  sent : gmap string string;
  content : Payload
}.

(** The text of a response body. *)
Definition body_text (r : Response) : option string :=
  match content r with
  | JsonBody v => Some (Js.stringify v)
  | RawBody s => Some s
  | NoBody => None
  end.

(** ** The Express router *)

(** Every layer of the application, named after the expression that
    creates its handler in [app.js]. *)
Inductive Label : Type :=
| Helmet | ReferrerPolicy | ContentSecurityPolicy
| Static | HealthCheck | PassportInitialize | RequestLogger | CookieParser
| BodyUrlencoded | BodyJson | Cors
| AuthRoutes | MailerRoutes
| PaymentsVerifyJwt | PaymentRoutes
| GraphqlVerifyJwt | GraphqlExpress
| GraphiqlExpress
| UnknownRoute | ErrorMiddleware.

Inductive Level : Type := Warn | Error.

Module Graphql.

(** [graphqlSchema], imported from [./api/graphql/graphql-schema]. *)
Variant Schema : Type := graphqlSchema.

(** [{ req, user: req.user }] *)
Record Context : Type := mkContext {
req : Request;
user : option Js.value
}.

(** [{ schema, context }], the options [graphqlExpress] is given for a
  request. *)
Record Options : Type := mkOptions {
schema : Schema;
context : Context
}.

End Graphql.

(** What a run leaves behind besides the response: which handlers were
    called and with which request object, what was logged, and which
    options the GraphQL server was run with. *)
Inductive Event : Type :=
| Invoke (l : Label) (r : Request)
| Logged (lvl : Level) (msg : string)
| Execute (o : Graphql.Options).

(** The three ways a handler hands over: [next()], [next(err)], or ending
    the response. *)
Inductive Step : Type :=
| Next (r : Request) (h : gmap string string)
| NextErr (e : Js.value) (r : Request) (h : gmap string string)
| End (resp : Response).

Definition Handler : Type := Request -> gmap string string -> list Event * Step.
Definition ErrorHandler : Type :=
  Js.value -> Request -> gmap string string -> list Event * Step.

(** A handler function; Express tells the two kinds apart by the number of
    declared parameters (three, or four with [error] first). *)
Inductive Fn : Type :=
| Plain (f : Handler)
| OnError (f : ErrorHandler).

(** [app.use(fn)] registers a layer without mount path, [app.use(path, fn)]
    one with; [app.use(path, f, g)] registers one layer per function. *)
Record Layer : Type := mkLayer {
  label : Label;
  mount : option string;
  fn : Fn
}.

(** How a run of the stack ends: a response was sent, or the stack was
    exhausted in the given state (Express then falls back to its final
    handler). *)
Inductive Outcome : Type :=
| Responded (resp : Response)
| Exhausted (err : option Js.value) (r : Request) (h : gmap string string).

Module Express.

(** [layer.match(path)]: the matched text, empty for a layer without
  mount path (which matches every path). *)
Definition layer_match (l : Layer) (path : string) : option string :=
match mount l with
| None => Some EmptyString
| Some m => Url.match_mount m path
end.

Definition slash_added (removed : string) (r : Request) : bool :=
negb (Url.starts_with_slash (Url.skip (String.length removed) (url r))).

(** [trim_prefix]: inside a mounted layer [req.url] is relative to the
  mount path and [req.baseUrl] holds what was removed. *)
Definition trim_prefix (removed : string) (r : Request) : Request :=
match removed with
| EmptyString => r
| _ =>
    let rest := Url.skip (String.length removed) (url r) in
    set_url
      (if Url.starts_with_slash rest then rest else "/" +:+ rest)
      (baseUrl r +:+
         (if Url.ends_with_slash removed
          then Url.keep (String.length removed - 1) removed
          else removed))
      r
end.

(** The start of [next]: the URL a handler saw is put back before the
  following layer is tried.  [before] is the request as it was when the
  layer was entered, [after] as the handler left it. *)
Definition restore (removed : string) (before after : Request) : Request :=
match removed with
| EmptyString => after
| _ =>
    set_url
      (removed +:+
         (if slash_added removed before then Url.skip 1 (url after) else url after))
      (baseUrl before)
      after
end.

(** [layer.handle_request] / [layer.handle_error]: a handler of the
  other kind is skipped. *)
Definition call (f : Fn) (err : option Js.value) (r : Request)
  (h : gmap string string) : option (list Event * Step) :=
match f, err with
| Plain g, None => Some (g r h)
| OnError g, Some e => Some (g e r h)
| Plain _, Some _ => None
| OnError _, None => None
end.

Definition prepend (evs : list Event) (res : list Event * Outcome)
  : list Event * Outcome :=
(evs ++ fst res, snd res).

(** [router.handle]: the layers are tried in registration order; a layer
  whose path matches and whose handler is of the kind the current mode
  asks for is called; the run goes on with the next layer when the
  handler calls [next], and stops when it ends the response. *)
Fixpoint handle (stack : list Layer) (err : option Js.value) (r : Request)
  (h : gmap string string) : list Event * Outcome :=
match stack with
| [] => ([], Exhausted err r h)
| l :: stack' =>
    match layer_match l (Url.pathname (url r)) with
    | None => handle stack' err r h
    | Some removed =>
        let inside := trim_prefix removed r in
        match call (fn l) err inside h with
        | None => handle stack' err r h
        | Some (evs, Next r' h') =>
            prepend (Invoke (label l) inside :: evs)
              (handle stack' None (restore removed r r') h')
        | Some (evs, NextErr e r' h') =>
            prepend (Invoke (label l) inside :: evs)
              (handle stack' (Some e) (restore removed r r') h')
        | Some (evs, End resp) =>
            (Invoke (label l) inside :: evs, Responded resp)
        end
    end
end.

(** [res.status(code).json(obj)].  Of the headers [res.json] adds, the
  content type is modelled; length and entity tag are not. *)
Definition json_response (code : Js.value) (obj : Js.value)
  (h : gmap string string) : Response :=
{| status := code;
   sent := match h !! "Content-Type" with
           | Some _ => h
           | None => <["Content-Type" := "application/json; charset=utf-8"]> h
           end;
   content := JsonBody obj |}.

Definition json (code : Js.value) (obj : Js.value) (h : gmap string string)
  : Step :=
End (json_response code obj h).

End Express.

(** ** The collaborators of [app.js] *)

(** The answer of a handler that lives outside this file: it passes the
    request on unchanged, fails, or replies with a status and a body (sent
    with the response headers set so far). *)
Inductive Delegated : Type :=
| Pass
| Fail (e : Js.value)
| Reply (code : Z) (b : Payload).

Definition reply (code : Z) (b : Payload) (h : gmap string string) : Response :=
  {| status := Js.Num code; sent := h; content := b |}.

Definition delegate (d : Delegated) : Request -> gmap string string -> Step :=
  fun r h =>
    match d with
    | Pass => Next r h
    | Fail e => NextErr e r h
    | Reply code b => End (reply code b h)
    end.

Inductive Parsed : Type :=
| ParseOk (v : Js.value)
| ParseError (e : Js.value).

(** [formatError(error)] returns an object of which [app.js] reads
    [message], [statusCode] and [jsonResponse]. *)
Record Formatted : Type := mkFormatted {
  message : string;
  statusCode : Js.value;
  jsonResponse : Js.value
}.

(** [config] *)
Record Config : Type := mkConfig {
  contentSecurityPolicy : list (string * list string);
  server_port : Z;
  server_docs : bool
}.

(** Everything [app.js] imports or reads at run time. *)
Record World : Type := mkWorld {
  config : Config;
  (** the headers [helmet()] sets or removes with its default options *)
  helmetDefaults : Request -> gmap string string -> gmap string string;
  (** the policy text [helmet.contentSecurityPolicy] renders from the
      configured directives *)
  renderPolicy : list (string * list string) -> string;
  (** [express.static('public')]: the file for a target below [/public] *)
  publicFile : Request -> Delegated;
  (** [process.uptime()], reported by [express-healthcheck] *)
  uptime : Js.value;
  (** [middleware/request-logger] *)
  requestLogger : Request -> Delegated;
  (** [cookie-parser] *)
  parseCookies : Request -> Js.value;
  (** [body-parser]: the two parsers *)
  parseUrlencoded : Request -> Parsed;
  parseJson : Request -> Parsed;
  (** the route modules of the repository *)
  authRoutes : Request -> Delegated;
  mailerRoutes : Request -> Delegated;
  paymentRoutes : Request -> Delegated;
  (** [middleware/verify-jwt]: the identity a valid bearer token of the
      request decodes to, and the reply sent otherwise *)
  decodeBearer : Request -> option Js.value;
  authFailure : Request -> Z * Payload;
  (** [apollo-server-express]: the GraphQL server run with the options
      computed for the request, and the explorer page *)
  graphqlServer : Graphql.Options -> Request -> Delegated;
  graphiqlPage : string -> Request -> Delegated;
  (** [local-error-handler] *)
  formatError : Js.value -> Formatted
}.

(** ** [app.js] *)

Module App.

Definition baseUrl : string := "/api".
Definition graphqlUrl : string := baseUrl +:+ "/graphql".

(** [cors({ origin: 'http://localhost:8080', optionsSuccessStatus: 200 })] *)
Definition origin : string := "http://localhost:8080".
Definition optionsSuccessStatus : Z := 200.

(** [vary(res, field)], for a field the header does not list yet. *)
Definition vary (field : string) (h : gmap string string) : gmap string string :=
match h !! "Vary" with
| None => <["Vary" := field]> h
| Some v => <["Vary" := v +:+ ", " +:+ field]> h
end.

(** The headers the [cors] package adds to every response for the
  options above.  With [origin] a string the package writes that string
  into [Access-Control-Allow-Origin], without looking at the [Origin]
  header of the request. *)
Definition corsHeaders (h : gmap string string) : gmap string string :=
vary "Origin" (<["Access-Control-Allow-Origin" := origin]> h).

(** The headers of the answer to a preflight request: in addition, the
  method list (the default of the package), the headers the request
  asks for, and an empty body. *)
Definition preflightHeaders (r : Request) (h : gmap string string)
  : gmap string string :=
let h2 := <["Access-Control-Allow-Methods" := "GET,HEAD,PUT,PATCH,POST,DELETE"]>
            (corsHeaders h) in
let h3 := vary "Access-Control-Request-Headers" h2 in
let h4 := match headers r !! "access-control-request-headers" with
          | Some (String c s) =>
              <["Access-Control-Allow-Headers" := String c s]> h3
          | _ => h3
          end in
<["Content-Length" := "0"]> h4.

(** The middleware of the [cors] package.  A request with method OPTIONS
  is a preflight: [preflightContinue] being off, the package ends the
  response with [optionsSuccessStatus] and no body.  Any other request
  is passed on. *)
Definition cors : Handler := fun r h =>
match method r with
| OPTIONS => ([], End (reply optionsSuccessStatus NoBody (preflightHeaders r h)))
| _ => ([], Next r (corsHeaders h))
end.

Section Stack.

Context (W : World).

(** *** Security headers (lines 24-28) *)

Definition helmet : Handler := fun r h =>
  ([], Next r (helmetDefaults W r h)).

(** [helmet.referrerPolicy({ policy: 'same-origin' })] *)
Definition referrerPolicy : Handler := fun r h =>
  ([], Next r (<["Referrer-Policy" := "same-origin"]> h)).

(** [helmet.contentSecurityPolicy({ directives: config.contentSecurityPolicy })] *)
Definition contentSecurityPolicyHeader : Handler := fun r h =>
  ([], Next r (<["Content-Security-Policy" :=
              renderPolicy W (contentSecurityPolicy (config W))]> h)).

(** *** Global middleware (lines 31-41) *)

Definition static : Handler := fun r h =>
  ([], delegate (publicFile W r) r h).

(** [healthCheck()] answers with the uptime, whatever the method. *)
Definition healthCheck : Handler := fun r h =>
  ([], Express.json (Js.Num 200) (Js.Obj [("uptime", uptime W)]) h).

Definition passportInitialize : Handler := fun r h => ([], Next r h).

Definition requestLoggerStage : Handler := fun r h =>
  ([], delegate (requestLogger W r) r h).

Definition cookieParser : Handler := fun r h =>
  ([], Next (set_cookies (parseCookies W r) r) h).

(** A parser stores the decoded body in [req.body], or forwards the
parse error. *)
Definition bodyParser (parse : Request -> Parsed) : Handler := fun r h =>
  match parse r with
  | ParseOk v => ([], Next (set_body v r) h)
  | ParseError e => ([], NextErr e r h)
  end.

(** *** Routes (lines 47-69) *)

(** Modelled from the spec: [middleware/verify-jwt] is required by
[app.js] but its source is not part of the file.  Section 4.3 gives
its contract: inspect the request for a bearer credential; if absent
or invalid, short-circuit with an authentication-failure response;
if valid, attach the decoded identity to the request ([req.user])
and continue. *)
Definition verifyJwt : Handler := fun r h =>
  match decodeBearer W r with
  | Some identity => ([], Next (set_user identity r) h)
  | None => ([], End (reply (fst (authFailure W r)) (snd (authFailure W r)) h))
  end.

(** [req => ({ schema: graphqlSchema, context: { req, user: req.user } })] *)
Definition graphqlOptions (r : Request) : Graphql.Options :=
  {| Graphql.schema := Graphql.graphqlSchema;
 Graphql.context := {| Graphql.req := r; Graphql.user := user r |} |}.

(** [graphqlExpress(options)]: the options are computed from the
request, then the server runs with them. *)
Definition graphqlExpress (options : Request -> Graphql.Options) : Handler :=
  fun r h =>
([Execute (options r)], delegate (graphqlServer W (options r) r) r h).

(** [graphiqlExpress({ endpointURL })] *)
Definition graphiqlExpress (endpointURL : string) : Handler := fun r h =>
  ([], delegate (graphiqlPage W endpointURL r) r h).

Definition routed (d : Request -> Delegated) : Handler := fun r h =>
  ([], delegate (d r) r h).

(** *** Terminal handlers (lines 71-97) *)

(** The [appError] literal of the unknown-route handler. *)
Definition appError (r : Request) : Js.value :=
  Js.Obj [
("name", Js.Str "AppError");
("message", Js.Str "Unknown route requested");
("statusCode", Js.Str "404");
("errors", Js.Arr [
   Js.Obj [
     ("statusCode", Js.Str "404");
     ("message", Js.Str "Unknown route requested");
     ("code", Js.Str "UNKNOWN_ROUTE");
     ("meta", Js.Obj [("route", Js.Str (url r))])
   ]
 ])
  ].

(** [res.status(err.statusCode).json({ errors: err.jsonResponse })],
the last statement of both terminal handlers. *)
Definition respond (err : Formatted) (h : gmap string string) : Step :=
  Express.json (statusCode err) (Js.Obj [("errors", jsonResponse err)]) h.

(** The response that statement sends. *)
Definition errorResponse (err : Formatted) (h : gmap string string)
: Response :=
  Express.json_response (statusCode err)
(Js.Obj [("errors", jsonResponse err)]) h.

(** What follows a route handler that lives outside this file: its
reply stands; if it passes or fails, the layers registered after
the routes take over. *)
Definition conclude (rest : list Layer) (d : Delegated) (r : Request)
(h : gmap string string) : list Event * Outcome :=
  match d with
  | Reply code b => ([], Responded (reply code b h))
  | Pass => Express.handle rest None r h
  | Fail e => Express.handle rest (Some e) r h
  end.

Definition logLine (err : Formatted) : string :=
  "APP-MIDDLEWARE: " +:+ message err.

Definition unknownRoute : Handler := fun r h =>
  let err := formatError W (appError r) in
  ([Logged Warn (logLine err)], respond err h).

Definition errorMiddleware : ErrorHandler := fun error r h =>
  let err := formatError W error in
  ([Logged Error (logLine err)], respond err h).

(** *** The stack, in registration order *)

Definition securityHeaders : list Layer := [
  mkLayer Helmet None (Plain helmet);
  mkLayer ReferrerPolicy None (Plain referrerPolicy);
  mkLayer ContentSecurityPolicy None (Plain contentSecurityPolicyHeader)
].

Definition useCors : Layer := mkLayer Cors None (Plain cors).

(** The layers of lines 24-37, before the CORS middleware. *)
Definition beforeCors : list Layer :=
  securityHeaders ++ [
mkLayer Static (Some "/public") (Plain static);
mkLayer HealthCheck (Some "/health-check") (Plain healthCheck);
mkLayer PassportInitialize None (Plain passportInitialize);
mkLayer RequestLogger None (Plain requestLoggerStage);
mkLayer CookieParser None (Plain cookieParser);
mkLayer BodyUrlencoded None (Plain (bodyParser (parseUrlencoded W)));
mkLayer BodyJson None (Plain (bodyParser (parseJson W)))
  ].

(** [app.use(`${baseUrl}/auth`, authRoutes)] and the three calls that
follow it (lines 54-65). *)
Definition useAuth : Layer :=
  mkLayer AuthRoutes (Some (baseUrl +:+ "/auth")) (Plain (routed (authRoutes W))).
Definition useMailer : Layer :=
  mkLayer MailerRoutes (Some (baseUrl +:+ "/mailer")) (Plain (routed (mailerRoutes W))).
Definition usePaymentsGate : Layer :=
  mkLayer PaymentsVerifyJwt (Some (baseUrl +:+ "/payments")) (Plain verifyJwt).
Definition usePayments : Layer :=
  mkLayer PaymentRoutes (Some (baseUrl +:+ "/payments"))
(Plain (routed (paymentRoutes W))).
Definition useGraphqlGate : Layer :=
  mkLayer GraphqlVerifyJwt (Some graphqlUrl) (Plain verifyJwt).
Definition useGraphql : Layer :=
  mkLayer GraphqlExpress (Some graphqlUrl) (Plain (graphqlExpress graphqlOptions)).

(** [if (config.server.docs) { app.use(`${baseUrl}/docs`, ...) }] *)
Definition useDocs : Layer :=
  mkLayer GraphiqlExpress (Some (baseUrl +:+ "/docs"))
(Plain (graphiqlExpress graphqlUrl)).

Definition docs : list Layer :=
  if server_docs (config W) then [useDocs] else [].

Definition routes : list Layer :=
  [useAuth; useMailer; usePaymentsGate; usePayments; useGraphqlGate; useGraphql]
  ++ docs.

Definition terminals : list Layer := [
  mkLayer UnknownRoute None (Plain unknownRoute);
  mkLayer ErrorMiddleware None (OnError errorMiddleware)
].

Definition app : list Layer :=
  beforeCors ++ useCors :: routes ++ terminals.

(** The response headers when the first layer of [app] is entered:
Express has announced itself. *)
Definition initialHeaders : gmap string string :=
  {[ "X-Powered-By" := "Express" ]}.

(** One request through the application. *)
Definition serve (r : Request) : list Event * Outcome :=
  Express.handle app None r initialHeaders.

End Stack.

End App.

(** ** The contract of [formatError] *)

(** One entry of the wire envelope: an object with exactly the properties
    [statusCode], [message], [code] and [meta]. *)
Definition envelope_entry (v : Js.value) : bool :=
  match v with
  | Js.Obj props =>
      (length props =? 4)%nat
      && bool_decide (is_Some (Js.prop "statusCode" props))
      && bool_decide (is_Some (Js.prop "message" props))
      && bool_decide (is_Some (Js.prop "code" props))
      && bool_decide (is_Some (Js.prop "meta" props))
  | _ => false
  end.

(** Modelled from the spec: [local-error-handler] is required by [app.js]
    but its source is not part of the file.  Sections 3 and 4.5 describe it:
    it normalises an error into the AppError envelope; an AppError carries a
    name, a message, a status code and an ordered list of sub-errors, and is
    mapped to the wire envelope [{ errors: [...] }] with the HTTP status of
    the error.  For an object that already is an AppError (its sub-errors
    being envelope entries) this means: the message and status code are
    kept and the sub-errors become the [jsonResponse]. *)
Definition formats_AppError (f : Js.value -> Formatted) : Prop :=
  ∀ props m code entries,
    Js.prop "name" props = Some (Js.Str "AppError") →
    Js.prop "message" props = Some (Js.Str m) →
    Js.prop "statusCode" props = Some code →
    Js.prop "errors" props = Some (Js.Arr entries) →
    forallb envelope_entry entries = true →
    f (Js.Obj props) =
      {| message := m; statusCode := code; jsonResponse := Js.Arr entries |}.



(** Modelled from the spec: a formatter with the contract above.  An
    AppError passes through; any other error is wrapped into an envelope
    with one entry of status 500.  The spec fixes the shape of that entry
    but not its texts, which are chosen here. *)
Definition formatError_spec (error : Js.value) : Formatted :=
  match Js.get "name" error, Js.get "message" error,
        Js.get "statusCode" error, Js.get "errors" error with
  | Some (Js.Str n), Some (Js.Str m), Some code, Some (Js.Arr entries) =>
      if String.eqb n "AppError" && forallb envelope_entry entries
      then {| message := m; statusCode := code; jsonResponse := Js.Arr entries |}
      else {| message := m; statusCode := Js.Str "500";
              jsonResponse := Js.Arr [Js.Obj [("statusCode", Js.Str "500");
                                              ("message", Js.Str m);
                                              ("code", Js.Str "UNKNOWN_ERROR");
                                              ("meta", Js.Obj [])]] |}
  | _, _, _, _ =>
      {| message := "Internal server error"; statusCode := Js.Str "500";
         jsonResponse := Js.Arr [Js.Obj [("statusCode", Js.Str "500");
                                         ("message", Js.Str "Internal server error");
                                         ("code", Js.Str "UNKNOWN_ERROR");
                                         ("meta", Js.Obj [])]] |}
  end.

(** ** A concrete world

    One instance of every collaborator, used to run the pipeline on
    concrete requests. *)

Module Sample.

Definition identity : Js.value :=
Js.Obj [("id", Js.Num 7); ("email", Js.Str "ada@example.org")].

Definition unauthorized : Js.value :=
Js.Obj [("errors", Js.Arr [Js.Obj [("statusCode", Js.Str "401");
                                   ("message", Js.Str "Invalid token");
                                   ("code", Js.Str "UNAUTHORIZED");
                                   ("meta", Js.Obj [])]])].

Definition parseError : Js.value :=
Js.Obj [("name", Js.Str "SyntaxError");
        ("message", Js.Str "Unexpected end of JSON input");
        ("status", Js.Num 400)].

Definition world (docsEnabled : bool) : World :=
{| config := {| contentSecurityPolicy := [("defaultSrc", ["'self'"])];
                server_port := 3000;
                server_docs := docsEnabled |};
   helmetDefaults := fun _ h =>
     <["X-Frame-Options" := "SAMEORIGIN"]>
       (<["X-Content-Type-Options" := "nosniff"]> (delete "X-Powered-By" h));
   renderPolicy := fun _ => "default-src 'self'";
   publicFile := fun r =>
     match method r with
     | GET | HEAD =>
         if String.eqb (url r) "/app.css" then Reply 200 (RawBody "body{}") else Pass
     | _ => Pass
     end;
   uptime := Js.Num 42;
   requestLogger := fun _ => Pass;
   parseCookies := fun _ => Js.Obj [];
   parseUrlencoded := fun _ => ParseOk (Js.Obj []);
   parseJson := fun r =>
     if String.eqb (rawBody r) "{" then ParseError parseError
     else ParseOk (Js.Obj []);
   authRoutes := fun r =>
     if String.eqb (url r) "/login"
     then Reply 200 (JsonBody (Js.Obj [("token", Js.Str "good")]))
     else Pass;
   mailerRoutes := fun _ => Reply 202 NoBody;
   paymentRoutes := fun _ => Reply 200 (JsonBody (Js.Obj [("paid", Js.Bool true)]));
   decodeBearer := fun r =>
     match headers r !! "authorization" with
     | Some t => if String.eqb t "Bearer good" then Some identity else None
     | None => None
     end;
   authFailure := fun _ => (401%Z, JsonBody unauthorized);
   graphqlServer := fun o _ =>
     Reply 200 (JsonBody (Js.Obj [("data",
       Js.Obj [("viewer", default Js.Null (Graphql.user (Graphql.context o)))])]));
   graphiqlPage := fun endpoint _ => Reply 200 (RawBody ("GraphiQL for " +:+ endpoint));
   formatError := formatError_spec |}.

Definition bearer (token : string) : gmap string string :=
{[ "authorization" := "Bearer " +:+ token ]}.

Definition from (o : string) : gmap string string := {[ "origin" := o ]}.

End Sample.

(** ** Notions used in the statements *)

(** The handlers called during a run, in order. *)
Definition called (t : list Event) : list Label :=
  omap (fun e => match e with Invoke l _ => Some l | _ => None end) t.

(** The request [r] gets past every layer registered before the routes
    (lines 24-41) without a response and without an error, and reaches the
    first route as [r'] with the response headers [h'].  The handlers
    called on the way are in [t]. *)
Definition arrives (W : World) (r : Request) (t : list Event) (r' : Request)
    (h' : gmap string string) : Prop :=
  Express.handle (App.beforeCors W ++ [App.useCors]) None r App.initialHeaders
  = (t, Exhausted None r' h').

Definition matches (l : Layer) (path : string) : bool :=
  match Express.layer_match l path with
  | Some _ => true
  | None => false
  end.

(** The layer the router tries first for a path: the first one, in
    registration order, whose mount path matches. *)
Fixpoint first_match (stack : list Layer) (path : string) : option Layer :=
  match stack with
  | [] => None
  | l :: stack' => if matches l path then Some l else first_match stack' path
  end.

(** The path matches none of the routes. *)
Definition unrouted (W : World) (path : string) : bool :=
  forallb (fun l => negb (matches l path)) (App.routes W).



(** [p] is an initial part of [s], letters compared without case. *)
Definition ci_prefix (p s : string) : bool :=
  match Url.strip_ci p s with
  | Some _ => true
  | None => false
  end.



(** The body section 8 gives for an unmatched path. *)
Definition unknownRouteBody (route : string) : Js.value :=
  Js.Obj [("errors", Js.Arr [
    Js.Obj [("statusCode", Js.Str "404");
            ("message", Js.Str "Unknown route requested");
            ("code", Js.Str "UNKNOWN_ROUTE");
            ("meta", Js.Obj [("route", Js.Str route)])]])].

Definition quoted (word : string) : string := Js.quote +:+ word +:+ Js.quote.

(** The same body as the text that goes over the wire. *)
Definition unknownRouteText (route : string) : string :=
  "{" +:+ quoted "errors" +:+ ":[{"
      +:+ quoted "statusCode" +:+ ":" +:+ quoted "404" +:+ ","
      +:+ quoted "message" +:+ ":" +:+ quoted "Unknown route requested" +:+ ","
      +:+ quoted "code" +:+ ":" +:+ quoted "UNKNOWN_ROUTE" +:+ ","
      +:+ quoted "meta" +:+ ":{" +:+ quoted "route" +:+ ":" +:+ Js.literal route
      +:+ "}}]}".

(** [errors[0].meta.route] of a response body. *)
Definition meta_route (resp : Response) : option Js.value :=
  match content resp with
  | JsonBody b =>
      entry ← Js.get "errors" b ≫= Js.item 0;
      Js.get "meta" entry ≫= Js.get "route"
  | _ => None
  end.



(** ** Notions used in the proofs *)

(** The state a layer is entered in: the request object and the response
    headers set so far. *)
Definition State : Type := Request * gmap string string.

(** A layer respects a relation between states when the state it hands
    over (with the URL restored) is related to the state it was entered
    in. *)
Definition respects (R : State → State → Prop) (l : Layer) : Prop :=
  ∀ err r h removed evs s,
    Express.layer_match l (Url.pathname (url r)) = Some removed →
    Express.call (fn l) err (Express.trim_prefix removed r) h = Some (evs, s) →
    match s with
    | Next r' h' | NextErr _ r' h' => R (r, h) (Express.restore removed r r', h')
    | End _ => True
    end.

(** A handler records no call of another handler. *)
Definition quiet (l : Layer) : Prop :=
  ∀ err r h evs s, Express.call (fn l) err r h = Some (evs, s) → called evs = [].

(** Two request objects for the same request: they differ at most in what
    middleware attaches ([body], [cookies], [user]). *)
Definition same_request (a b : Request) : Prop :=
  method a = method b ∧ url a = url b ∧ baseUrl a = baseUrl b ∧
  originalUrl a = originalUrl b ∧ headers a = headers b ∧ rawBody a = rawBody b.

(** A layer is steady when its handler hands on the request object it was
    given, with at most [body], [cookies] or [user] attached. *)
Definition steady (l : Layer) : Prop :=
  ∀ err r h evs s,
    Express.call (fn l) err r h = Some (evs, s) →
    match s with
    | Next r' _ | NextErr _ r' _ => same_request r' r
    | End _ => True
    end.

(** A layer that does not touch [req.user]. *)
Definition anonymous (l : Layer) : Prop :=
  ∀ err r h evs s,
    Express.call (fn l) err r h = Some (evs, s) →
    match s with
    | Next r' _ | NextErr _ r' _ => user r' = user r
    | End _ => True
    end.

(** A layer keeps a response header: once [k] is set to [v], it still is
    when the handler hands over or ends the response. *)
Definition keeps (k v : string) (l : Layer) : Prop :=
  ∀ err r h evs s,
    h !! k = Some v →
    Express.call (fn l) err r h = Some (evs, s) →
    match s with
    | Next _ h' | NextErr _ _ h' => h' !! k = Some v
    | End resp => sent resp !! k = Some v
    end.

Definition R_any : State → State → Prop := fun _ _ => True.

Definition R_request : State → State → Prop :=
  fun a b => same_request b.1 a.1.

Definition R_user : State → State → Prop :=
  fun a b => user b.1 = user a.1.

Definition R_header (k v : string) : State → State → Prop :=
  fun a b => a.2 !! k = Some v → b.2 !! k = Some v.


Definition unmatched (p : string) (l : Layer) : Prop :=
  Express.layer_match l p = None.

Definition plain (l : Layer) : Prop := ∃ f, fn l = Plain f.

(** The response headers once the three security layers have run. *)
Definition secured (W : World) (r : Request) (h : gmap string string)
    : gmap string string :=
  <["Content-Security-Policy" := renderPolicy W (contentSecurityPolicy (config W))]>
    (<["Referrer-Policy" := "same-origin"]> (helmetDefaults W r h)).

(** The response of a run that ended with one. *)
Definition answer (o : Outcome) : Response :=
  match o with
  | Responded resp => resp
  | Exhausted _ _ h => reply 0 NoBody h
  end.


(** The protected route groups: mount path, gate layer, downstream
    layer. *)
Definition protected : list (string * Label * Label) :=
  [("/api/payments", PaymentsVerifyJwt, PaymentRoutes);
   ("/api/graphql", GraphqlVerifyJwt, GraphqlExpress)].



(** The layers registered before the routes (lines 24-41). *)
Definition early : list Label :=
  [Helmet; ReferrerPolicy; ContentSecurityPolicy; Static; HealthCheck;
   PassportInitialize; RequestLogger; CookieParser; BodyUrlencoded;
   BodyJson; Cors].

(** ** Notions used in the further properties *)

#[global] Instance Label_eq_dec : EqDecision Label.
Proof. solve_decision. Defined.


(** The two body parsers of lines 36-37, each with the function that
    decodes for it. *)
Definition parsers (W : World) : list (Label * (Request → Parsed)) :=
  [(BodyUrlencoded, parseUrlencoded W); (BodyJson, parseJson W)].

(** The layers of the two body parsers. *)
Definition urlencodedLayer (W : World) : Layer :=
  mkLayer BodyUrlencoded None (Plain (App.bodyParser (parseUrlencoded W))).

Definition jsonLayer (W : World) : Layer :=
  mkLayer BodyJson None (Plain (App.bodyParser (parseJson W))).

(** The layers registered before the body parsers (lines 24-35). *)
Definition beforeParsers (W : World) : list Layer := take 8 (App.beforeCors W).

(** The layers registered after the [/health-check] layer (lines 33-97). *)
Definition afterHealthCheck (W : World) : list Layer :=
  drop 5 (App.beforeCors W) ++ App.useCors :: App.routes W ++ App.terminals W.

(** A layer that leaves [req.body] and [req.cookies] as they are. *)
Definition untouched (l : Layer) : Prop :=
  ∀ err r h evs s,
    Express.call (fn l) err r h = Some (evs, s) →
    match s with
    | Next r' _ | NextErr _ r' _ => body r' = body r ∧ cookies r' = cookies r
    | End _ => True
    end.

Definition R_attached : State → State → Prop :=
  fun a b => body b.1 = body a.1 ∧ cookies b.1 = cookies a.1.

(** A layer that does not introduce the response header [k]. *)
Definition lacks (k : string) (l : Layer) : Prop :=
  ∀ err r h evs s,
    h !! k = None →
    Express.call (fn l) err r h = Some (evs, s) →
    match s with
    | Next _ h' | NextErr _ _ h' => h' !! k = None
    | End resp => sent resp !! k = None
    end.

Definition R_lacks (k : string) : State → State → Prop :=
  fun a b => a.2 !! k = None → b.2 !! k = None.

(** Two texts that differ at most in the case of their letters. *)
Fixpoint ci_equal (a b : string) : bool :=
  match a, b with
  | EmptyString, EmptyString => true
  | String x a', String y b' => Url.same_letter x y && ci_equal a' b'
  | _, _ => false
  end.

(** A collaborator that does not fail, a parser that decodes. *)
Definition succeeds (d : Delegated) : Prop :=
  match d with
  | Fail _ => False
  | _ => True
  end.

Definition parses (p : Parsed) : Prop :=
  match p with
  | ParseOk _ => True
  | ParseError _ => False
  end.

(** A world in which no collaborator of [app.js] forwards an error. *)
Definition reliable (W : World) : Prop :=
  (∀ x, succeeds (publicFile W x)) ∧
  (∀ x, succeeds (requestLogger W x)) ∧
  (∀ x, parses (parseUrlencoded W x)) ∧
  (∀ x, parses (parseJson W x)) ∧
  (∀ x, succeeds (authRoutes W x)) ∧
  (∀ x, succeeds (mailerRoutes W x)) ∧
  (∀ x, succeeds (paymentRoutes W x)) ∧
  (∀ o x, succeeds (graphqlServer W o x)) ∧
  (∀ u x, succeeds (graphiqlPage W u x)).

(** A layer whose handler, called without an error, does not forward
    one. *)
Definition calm (l : Layer) : Prop :=
  ∀ err r h evs s,
    Express.call (fn l) err r h = Some (evs, s) →
    err = None →
    match s with
    | NextErr _ _ _ => False
    | _ => True
    end.

(** The sample world with a JSON parser that takes every payload. *)
Definition lenientWorld : World :=
  let W := Sample.world true in
  {| config := config W;
     helmetDefaults := helmetDefaults W;
     renderPolicy := renderPolicy W;
     publicFile := publicFile W;
     uptime := uptime W;
     requestLogger := requestLogger W;
     parseCookies := parseCookies W;
     parseUrlencoded := parseUrlencoded W;
     parseJson := fun _ => ParseOk (Js.Obj []);
     authRoutes := authRoutes W;
     mailerRoutes := mailerRoutes W;
     paymentRoutes := paymentRoutes W;
     decodeBearer := decodeBearer W;
     authFailure := authFailure W;
     graphqlServer := graphqlServer W;
     graphiqlPage := graphiqlPage W;
     formatError := formatError W |}.

(** * Proofs *)

(** ** Strings *)

Section Strings.

Lemma append_cons (c : ascii) (a b : string) :
String c a +:+ b = String c (a +:+ b).
Proof. reflexivity. Qed.

Lemma append_assoc (a b c : string) : (a +:+ b) +:+ c = a +:+ (b +:+ c).
Proof.
induction a as [|x a IH]; [reflexivity|].
by rewrite !append_cons, IH.
Qed.

Lemma keep_skip (n : nat) (s : string) : Url.keep n s +:+ Url.skip n s = s.
Proof.
revert s; induction n as [|n IH]; intros s; [reflexivity|].
destruct s as [|c s]; simpl; [reflexivity|].
by rewrite append_cons, IH.
Qed.

Lemma skip_append (a b : string) : Url.skip (String.length a) (a +:+ b) = b.
Proof.
induction a as [|x a IH]; [by destruct b|].
rewrite append_cons. exact IH.
Qed.

Lemma pathname_prefix (u : string) : ∃ q, u = Url.pathname u +:+ q.
Proof.
induction u as [|c u [q IH]]; simpl; [by exists EmptyString|].
destruct (Ascii.eqb c "?" || Ascii.eqb c "#").
- by exists (String c u).
- exists q. by rewrite append_cons, <- IH.
Qed.

(** What a mounted layer removes from [req.url] is an initial part of it. *)
Lemma removed_prefix (m u removed : string) :
Url.match_mount m (Url.pathname u) = Some removed →
removed +:+ Url.skip (String.length removed) u = u.
Proof.
unfold Url.match_mount. intros H.
destruct (Url.strip_ci m (Url.pathname u)) as [rest|]; [|discriminate].
destruct (Url.boundary rest) as [k|]; [|discriminate].
injection H as <-.
destruct (pathname_prefix u) as [q Hq].
set (n := (String.length m + k)%nat).
assert (Hu : u = Url.keep n (Url.pathname u)
                   +:+ (Url.skip n (Url.pathname u) +:+ q)).
{ rewrite <- append_assoc, keep_skip. exact Hq. }
set (a := Url.keep n (Url.pathname u)) in *.
set (b := Url.skip n (Url.pathname u) +:+ q) in *.
clearbody a b. subst u. by rewrite skip_append.
Qed.

End Strings.

Arguments Url.match_mount : simpl never.
Arguments Url.pathname : simpl never.
Arguments Express.trim_prefix : simpl never.
Arguments Express.restore : simpl never.


(** ** The router *)

Section Router.

(** A handler that leaves [req.url] alone sees it restored afterwards. *)
Lemma restore_trim (l : Layer) (r : Request) (removed : string) :
Express.layer_match l (Url.pathname (url r)) = Some removed →
Express.restore removed r (Express.trim_prefix removed r) = r.
Proof.
unfold Express.layer_match. intros H.
destruct (mount l) as [m|].
- apply removed_prefix in H.
  unfold Express.restore, Express.trim_prefix, Express.slash_added.
  destruct removed as [|c removed]; [reflexivity|].
  set (rest := Url.skip _ (url r)) in *.
  destruct r as [me u b o hs p bo co us]; unfold set_url; simpl in *.
  f_equal. destruct (Url.starts_with_slash rest); simpl; exact H.
- by injection H as <-.
Qed.

Lemma restore_trim_user (l : Layer) (r : Request) (removed : string)
  (v : Js.value) :
Express.layer_match l (Url.pathname (url r)) = Some removed →
Express.restore removed r (set_user v (Express.trim_prefix removed r))
= set_user v r.
Proof.
unfold Express.layer_match. intros H.
destruct (mount l) as [m|].
- apply removed_prefix in H.
  unfold Express.restore, Express.trim_prefix, Express.slash_added.
  destruct removed as [|c removed]; [reflexivity|].
  set (rest := Url.skip _ (url r)) in *.
  destruct r as [me u b o hs p bo co us]; unfold set_url, set_user; simpl in *.
  f_equal. destruct (Url.starts_with_slash rest); simpl; exact H.
- by injection H as <-.
Qed.

Lemma trim_set_user (removed : string) (v : Js.value) (r : Request) :
Express.trim_prefix removed (set_user v r)
= set_user v (Express.trim_prefix removed r).
Proof. by destruct removed. Qed.

Lemma prepend_nil (res : list Event * Outcome) : Express.prepend [] res = res.
Proof. by destruct res. Qed.

Lemma prepend_prepend (a b : list Event) (res : list Event * Outcome) :
Express.prepend a (Express.prepend b res) = Express.prepend (a ++ b) res.
Proof. unfold Express.prepend; simpl. by rewrite app_assoc. Qed.

(** Running a stack made of two parts: the second part takes over in the
  state in which the first one is exhausted. *)
Lemma handle_app (s1 s2 : list Layer) (err : option Js.value) (r : Request)
  (h : gmap string string) :
Express.handle (s1 ++ s2) err r h =
  match Express.handle s1 err r h with
  | (t, Responded resp) => (t, Responded resp)
  | (t, Exhausted err' r' h') => Express.prepend t (Express.handle s2 err' r' h')
  end.
Proof.
revert err r h; induction s1 as [|l s1 IH]; intros err r h; simpl.
- by rewrite prepend_nil.
- destruct (Express.layer_match l _) as [removed|]; [|apply IH].
  destruct (Express.call _ _ _ _) as [[evs [r' h'|e r' h'|resp]]|];
    [| |reflexivity|apply IH].
  + rewrite IH. destruct (Express.handle s1 _ _ _) as [t [resp|e' r'' h'']];
      [reflexivity|]. by rewrite prepend_prepend.
  + rewrite IH. destruct (Express.handle s1 _ _ _) as [t [resp|e' r'' h'']];
      [reflexivity|]. by rewrite prepend_prepend.
Qed.

End Router.

Section Invariant.

Context (R : State → State → Prop).
Context (R_refl : ∀ x, R x x).
Context (R_trans : ∀ x y z, R x y → R y z → R x z).

(** If the stack is exhausted, the state it is left in is related to the
  state it was entered in. *)
Lemma handle_exhausted (stack : list Layer) :
Forall (respects R) stack →
∀ err r h t err' r' h',
  Express.handle stack err r h = (t, Exhausted err' r' h') →
  R (r, h) (r', h').
Proof.
induction 1 as [|l stack Hl _ IH]; intros err r h t err' r' h'; simpl.
- intros [= _ _ <- <-]. apply R_refl.
- destruct (Express.layer_match l _) as [removed|] eqn:Hm; [|apply IH].
  destruct (Express.call _ _ _ _) as [[evs s]|] eqn:Hc; [|apply IH].
  specialize (Hl _ _ _ _ _ _ Hm Hc).
  destruct s as [r1 h1|e r1 h1|resp]; [| |discriminate];
    destruct (Express.handle stack _ _ h1) as [t1 o1] eqn:Hrest;
    unfold Express.prepend; simpl; intros [= _ ->];
    eapply R_trans; eauto.
Qed.

(** Every handler that is called sees a request that is the trimmed form
  of a state related to the initial one. *)
Lemma handle_invoked (stack : list Layer) :
Forall (respects R) stack → Forall quiet stack →
∀ err r h lab x,
  Invoke lab x ∈ (Express.handle stack err r h).1 →
  ∃ l y hy removed,
    l ∈ stack ∧ label l = lab ∧ R (r, h) (y, hy) ∧
    Express.layer_match l (Url.pathname (url y)) = Some removed ∧
    x = Express.trim_prefix removed y.
Proof.
induction 1 as [|l stack Hl _ IH]; intros Hq err r h lab x; simpl.
- intros Hin. by apply elem_of_nil in Hin.
- apply Forall_cons in Hq as [Hq1 Hq].
  assert (Hskip : Invoke lab x ∈ (Express.handle stack err r h).1 →
    ∃ l0 y hy removed, l0 ∈ l :: stack ∧ label l0 = lab ∧ R (r, h) (y, hy) ∧
      Express.layer_match l0 (Url.pathname (url y)) = Some removed ∧
      x = Express.trim_prefix removed y).
  { intros Hin. destruct (IH Hq _ _ _ _ _ Hin) as (l0 & y & hy & rm & ? & ?).
    exists l0, y, hy, rm. split; [by right | done]. }
  destruct (Express.layer_match l _) as [removed|] eqn:Hm; [|exact Hskip].
  destruct (Express.call _ _ _ _) as [[evs s]|] eqn:Hc; [|exact Hskip].
  pose proof (Hl _ _ _ _ _ _ Hm Hc) as HR.
  pose proof (Hq1 _ _ _ _ _ Hc) as Hevs.
  assert (Hnot : Invoke lab x ∉ evs).
  { intros Hin. assert (lab ∈ called evs) as Hc'.
    { unfold called. apply list_elem_of_omap. by exists (Invoke lab x). }
    rewrite Hevs in Hc'. by apply elem_of_nil in Hc'. }
  assert (Hhere : Invoke lab x = Invoke (label l) (Express.trim_prefix removed r) →
    ∃ l0 y hy rm, l0 ∈ l :: stack ∧ label l0 = lab ∧ R (r, h) (y, hy) ∧
      Express.layer_match l0 (Url.pathname (url y)) = Some rm ∧
      x = Express.trim_prefix rm y).
  { intros [= -> ->]. exists l, r, h, removed.
    repeat split; [by left | apply R_refl | exact Hm]. }
  assert (Hlater : ∀ e1 r1 h1, R (r, h) (r1, h1) →
    Invoke lab x ∈ (Express.handle stack e1 r1 h1).1 →
    ∃ l0 y hy rm, l0 ∈ l :: stack ∧ label l0 = lab ∧ R (r, h) (y, hy) ∧
      Express.layer_match l0 (Url.pathname (url y)) = Some rm ∧
      x = Express.trim_prefix rm y).
  { intros e1 r1 h1 HR1 Hin.
    destruct (IH Hq _ _ _ _ _ Hin) as (l0 & y & hy & rm & ? & ? & ? & ? & ?).
    exists l0, y, hy, rm. repeat split; [by right | done | | done..].
    eapply R_trans; eauto. }
  destruct s as [r1 h1|e r1 h1|resp]; simpl;
    rewrite ?elem_of_cons, ?elem_of_app; intros Hin.
  + destruct Hin as [Hin|[Hin|Hin]]; [eauto | done | eauto].
  + destruct Hin as [Hin|[Hin|Hin]]; [eauto | done | eauto].
  + destruct Hin as [Hin|Hin]; [eauto | done].
Qed.

(** A response comes from a handler called in a state related to the
  initial one. *)
Lemma handle_responded (stack : list Layer) :
Forall (respects R) stack →
∀ err r h t resp,
  Express.handle stack err r h = (t, Responded resp) →
  ∃ l err' y hy removed evs,
    l ∈ stack ∧ R (r, h) (y, hy) ∧
    Express.layer_match l (Url.pathname (url y)) = Some removed ∧
    Express.call (fn l) err' (Express.trim_prefix removed y) hy
      = Some (evs, End resp).
Proof.
induction 1 as [|l stack Hl _ IH]; intros err r h t resp; simpl;
  [discriminate|].
assert (Hlater : ∀ e1 r1 h1 t1, R (r, h) (r1, h1) →
  Express.handle stack e1 r1 h1 = (t1, Responded resp) →
  ∃ l0 err' y hy removed evs,
    l0 ∈ l :: stack ∧ R (r, h) (y, hy) ∧
    Express.layer_match l0 (Url.pathname (url y)) = Some removed ∧
    Express.call (fn l0) err' (Express.trim_prefix removed y) hy
      = Some (evs, End resp)).
{ intros e1 r1 h1 t1 HR1 Hrun.
  destruct (IH _ _ _ _ _ Hrun) as (l0 & e' & y & hy & rm & evs & ? & ? & ? & ?).
  exists l0, e', y, hy, rm, evs. repeat split; [by right | | done..].
  eapply R_trans; eauto. }
destruct (Express.layer_match l _) as [removed|] eqn:Hm; [|by eauto].
destruct (Express.call _ _ _ _) as [[evs s]|] eqn:Hc; [|by eauto].
pose proof (Hl _ _ _ _ _ _ Hm Hc) as HR.
destruct s as [r1 h1|e r1 h1|resp1].
- destruct (Express.handle stack _ _ h1) as [t1 o1] eqn:Hrest.
  unfold Express.prepend; simpl. intros [= _ ->]. eauto.
- destruct (Express.handle stack _ _ h1) as [t1 o1] eqn:Hrest.
  unfold Express.prepend; simpl. intros [= _ ->]. eauto.
- intros [= _ ->]. exists l, err, r, h, removed, evs.
  repeat split; [by left | apply R_refl | done..].
Qed.

End Invariant.

(** ** The layers of the application, one by one *)

Ltac innermost x :=
  lazymatch x with
  | context [match ?y with _ => _ end] => innermost y
  | _ => destruct x eqn:?
  end.

Ltac handler :=
  let err := fresh "err" in
  intros err; intros;
  match goal with
  | Hc : Express.call _ _ _ _ = Some _ |- _ =>
      destruct err; cbn [Express.call fn] in Hc; try discriminate;
      apply (inj Some) in Hc;
      unfold App.helmet, App.referrerPolicy, App.contentSecurityPolicyHeader,
        App.static, App.healthCheck, App.passportInitialize,
        App.requestLoggerStage, App.cookieParser, App.bodyParser, App.cors,
        App.routed, App.verifyJwt, App.graphqlExpress, App.graphiqlExpress,
        App.unknownRoute, App.errorMiddleware, App.respond, Express.json,
        Express.json_response, reply, delegate in Hc;
      repeat match type of Hc with
             | context [match ?x with _ => _ end] => innermost x
             end;
      injection Hc as <- <-
  end.

Ltac each_layer :=
  unfold App.app, App.beforeCors, App.useCors, App.securityHeaders, App.routes,
    App.docs, App.terminals, App.useAuth, App.useMailer, App.usePaymentsGate,
    App.usePayments, App.useGraphqlGate, App.useGraphql, App.useDocs;
  try match goal with |- context [server_docs ?c] => destruct (server_docs c) end;
  simpl;
  repeat apply Forall_cons_2; try apply Forall_nil_2.


Section Layers.

Context (W : World).

Lemma same_request_refl (r : Request) : same_request r r.
Proof. by repeat split. Qed.

Lemma same_request_trans (a b c : Request) :
same_request a b → same_request b c → same_request a c.
Proof. unfold same_request. intros (?&?&?&?&?&?) (?&?&?&?&?&?).
     repeat split; congruence. Qed.

Lemma restore_steady (l : Layer) (r r' : Request) (removed : string) :
Express.layer_match l (Url.pathname (url r)) = Some removed →
same_request r' (Express.trim_prefix removed r) →
same_request (Express.restore removed r r') r.
Proof.
unfold Express.layer_match. intros H.
destruct (mount l) as [m|].
- apply removed_prefix in H.
  unfold Express.restore, Express.trim_prefix, Express.slash_added.
  destruct removed as [|c removed]; [done|].
  set (rest := Url.skip _ (url r)) in *.
  unfold same_request; simpl. intros (?&Hu&?&?&?&?).
  repeat split; try done. rewrite Hu.
  destruct (Url.starts_with_slash rest); simpl; exact H.
- by injection H as <-.
Qed.

Lemma steady_respects (l : Layer) : steady l → respects R_request l.
Proof.
intros Hl err r h removed evs s Hm Hc. specialize (Hl _ _ _ _ _ Hc).
unfold R_request; simpl.
destruct s; [eapply restore_steady; eauto..|done].
Qed.

Lemma restore_headers (k v : string) (l : Layer) :
keeps k v l → respects (R_header k v) l.
Proof.
intros Hl err r h removed evs s Hm Hc. unfold R_header; simpl.
destruct s; [intros Hk; exact (Hl _ _ _ _ _ Hk Hc)..|done].
Qed.

Lemma app_quiet : Forall quiet (App.app W).
Proof. each_layer; handler; done. Qed.

Lemma app_steady : Forall steady (App.app W).
Proof.
each_layer; handler; try done; by repeat split.
Qed.

Lemma vary_lookup (field k : string) (h : gmap string string) :
k ≠ "Vary" → App.vary field h !! k = h !! k.
Proof.
intros Hk. unfold App.vary. destruct (h !! "Vary");
  by rewrite lookup_insert_ne.
Qed.


Lemma corsHeaders_origin (h : gmap string string) :
App.corsHeaders h !! "Access-Control-Allow-Origin" = Some App.origin.
Proof.
unfold App.corsHeaders. by rewrite vary_lookup, lookup_insert_eq.
Qed.


Lemma preflightHeaders_origin (r : Request) (h : gmap string string) :
App.preflightHeaders r h !! "Access-Control-Allow-Origin" = Some App.origin.
Proof.
unfold App.preflightHeaders.
rewrite lookup_insert_ne by done.
destruct (headers r !! _) as [[|c s]|];
  rewrite ?lookup_insert_ne, vary_lookup, lookup_insert_ne by done;
  apply corsHeaders_origin.
Qed.


(** The routes and the terminal handlers only ever add the content
  type. *)
Lemma routes_keep (k v : string) :
k ≠ "Content-Type" →
Forall (keeps k v) (App.routes W ++ App.terminals W).
Proof.
intros Hk.
each_layer; handler; repeat case_match; cbn [sent];
  rewrite ?lookup_insert_ne by done; done.
Qed.

End Layers.

(** ** Mount paths *)

Section Mounts.

Lemma same_letter_join (a b c : ascii) :
Url.same_letter a c = true → Url.same_letter b c = true →
Url.same_letter a b = true.
Proof.
unfold Url.same_letter. rewrite !Ascii.eqb_eq. congruence.
Qed.

(** Two prefixes of one string: the shorter is a prefix of the longer. *)
Lemma strip_ci_both (a b s x y : string) :
Url.strip_ci a s = Some x → Url.strip_ci b s = Some y →
ci_prefix a b = true ∨ ci_prefix b a = true.
Proof.
unfold ci_prefix.
revert b s; induction a as [|c a IH]; intros b s; [by left|].
destruct b as [|d b]; [by right|].
destruct s as [|e s]; simpl; [discriminate|].
destruct (Url.same_letter c e) eqn:Hc; [|discriminate].
destruct (Url.same_letter d e) eqn:Hd; [|discriminate].
rewrite (same_letter_join _ _ _ Hc Hd), (same_letter_join _ _ _ Hd Hc).
apply IH.
Qed.

Lemma match_mount_strip (m p removed : string) :
Url.match_mount m p = Some removed → ∃ rest, Url.strip_ci m p = Some rest.
Proof.
unfold Url.match_mount. destruct (Url.strip_ci m p); [eauto|discriminate].
Qed.

(** Mount paths of which neither continues the other never match the
  same path. *)
Lemma match_mount_excl (m m' p removed : string) :
ci_prefix m m' || ci_prefix m' m = false →
Url.match_mount m p = Some removed →
Url.match_mount m' p = None.
Proof.
intros Hno Hm. destruct (Url.match_mount m' p) as [removed'|] eqn:Hm'; [|done].
apply match_mount_strip in Hm as [x Hx].
apply match_mount_strip in Hm' as [y Hy].
destruct (strip_ci_both _ _ _ _ _ Hx Hy) as [H|H]; rewrite H in Hno;
  [done | by rewrite orb_true_r in Hno].
Qed.

End Mounts.

(** ** Stepping through the stack *)

Section Steps.

Lemma handle_mounted (lab : Label) (m : string) (f : Handler)
  (stack : list Layer) (r : Request) (h : gmap string string) :
Express.handle (mkLayer lab (Some m) (Plain f) :: stack) None r h =
  match Url.match_mount m (Url.pathname (url r)) with
  | None => Express.handle stack None r h
  | Some removed =>
      let inside := Express.trim_prefix removed r in
      match f inside h with
      | (evs, Next r' h') =>
          Express.prepend (Invoke lab inside :: evs)
            (Express.handle stack None (Express.restore removed r r') h')
      | (evs, NextErr e r' h') =>
          Express.prepend (Invoke lab inside :: evs)
            (Express.handle stack (Some e) (Express.restore removed r r') h')
      | (evs, End resp) => (Invoke lab inside :: evs, Responded resp)
      end
  end.
Proof.
simpl. unfold Express.layer_match; simpl.
destruct (Url.match_mount m _) as [removed|]; [|reflexivity].
by destruct (f _ h) as [evs [?|?|?]].
Qed.

Lemma handle_unmounted (lab : Label) (f : Handler)
  (stack : list Layer) (r : Request) (h : gmap string string) :
Express.handle (mkLayer lab None (Plain f) :: stack) None r h =
  match f r h with
  | (evs, Next r' h') =>
      Express.prepend (Invoke lab r :: evs) (Express.handle stack None r' h')
  | (evs, NextErr e r' h') =>
      Express.prepend (Invoke lab r :: evs) (Express.handle stack (Some e) r' h')
  | (evs, End resp) => (Invoke lab r :: evs, Responded resp)
  end.
Proof.
simpl. change (Express.trim_prefix EmptyString r) with r.
by destruct (f r h) as [evs [?|?|?]].
Qed.

(** In error mode a handler with three parameters is passed over. *)
Lemma handle_plain_error (lab : Label) (m : option string) (f : Handler)
  (stack : list Layer) (e : Js.value) (r : Request) (h : gmap string string) :
Express.handle (mkLayer lab m (Plain f) :: stack) (Some e) r h =
  Express.handle stack (Some e) r h.
Proof. simpl. by destruct (Express.layer_match _ _). Qed.

Lemma handle_all_plain_error (stack : list Layer) (e : Js.value) (r : Request)
  (h : gmap string string) :
Forall (fun l => ∃ f, fn l = Plain f) stack →
Express.handle stack (Some e) r h = ([], Exhausted (Some e) r h).
Proof.
induction 1 as [|l stack [f Hf] _ IH]; [reflexivity|].
simpl. rewrite Hf. simpl. by destruct (Express.layer_match _ _).
Qed.

End Steps.

(** ** The routes and the terminal handlers *)

Section Routes.

Context (W : World).

Lemma routes_plain : Forall (fun l => ∃ f, fn l = Plain f) (App.routes W).
Proof.
unfold App.routes, App.docs. destruct (server_docs (config W));
  repeat apply Forall_cons_2; try apply Forall_nil_2; eauto.
Qed.

Lemma terminals_unknown (r : Request) (h : gmap string string) :
Express.handle (App.terminals W) None r h =
  let err := formatError W (App.appError r) in
  ([Invoke UnknownRoute r; Logged Warn (App.logLine err)],
   Responded (App.errorResponse err h)).
Proof. reflexivity. Qed.

Lemma terminals_error (e : Js.value) (r : Request) (h : gmap string string) :
Express.handle (App.terminals W) (Some e) r h =
  let err := formatError W e in
  ([Invoke ErrorMiddleware r; Logged Error (App.logLine err)],
   Responded (App.errorResponse err h)).
Proof. reflexivity. Qed.

Lemma routes_error (e : Js.value) (r : Request) (h : gmap string string) :
Express.handle (App.routes W ++ App.terminals W) (Some e) r h =
  Express.handle (App.terminals W) (Some e) r h.
Proof.
rewrite handle_app, handle_all_plain_error by apply routes_plain.
by rewrite prepend_nil.
Qed.

Lemma unrouted_spec (p : string) :
unrouted W p = true ↔
Forall (fun l => Express.layer_match l p = None) (App.routes W).
Proof.
unfold unrouted. rewrite forallb_forall, Forall_forall.
split; intros H l Hl.
- apply list_elem_of_In in Hl. specialize (H l Hl).
  unfold matches in H. by destruct (Express.layer_match l p).
- apply list_elem_of_In in Hl. specialize (H l Hl).
  unfold matches. by rewrite H.
Qed.

Lemma handle_unmatched (stack : list Layer) (err : option Js.value)
  (r : Request) (h : gmap string string) :
Forall (fun l => Express.layer_match l (Url.pathname (url r)) = None) stack →
Express.handle stack err r h = ([], Exhausted err r h).
Proof.
induction 1 as [|l stack Hl _ IH]; [reflexivity|]. simpl. by rewrite Hl.
Qed.

(** No route matches: the request goes to the unknown-route handler. *)
Lemma route_none (r : Request) (h : gmap string string) :
unrouted W (Url.pathname (url r)) = true →
Express.handle (App.routes W ++ App.terminals W) None r h =
  Express.handle (App.terminals W) None r h.
Proof.
intros H. apply unrouted_spec in H.
rewrite handle_app, handle_unmatched by done. by rewrite prepend_nil.
Qed.

End Routes.

Section Dispatch.

Context (W : World).

Lemma handle_past (pre rest : list Layer) (err : option Js.value)
  (r : Request) (h : gmap string string) :
Forall (unmatched (Url.pathname (url r))) pre →
Express.handle (pre ++ rest) err r h = Express.handle rest err r h.
Proof.
intros H. rewrite handle_app, handle_unmatched by exact H.
by rewrite prepend_nil.
Qed.

Lemma handle_past_error (pre rest : list Layer) (e : Js.value)
  (r : Request) (h : gmap string string) :
Forall plain pre →
Express.handle (pre ++ rest) (Some e) r h = Express.handle rest (Some e) r h.
Proof.
intros H. rewrite handle_app, handle_all_plain_error by exact H.
by rewrite prepend_nil.
Qed.

(** A route whose handler lives outside the file: it is called with the
  trimmed request, and the layers after the routes take over unless it
  replies. *)
Lemma delegated_route (pre post rest : list Layer) (lab : Label) (m : string)
  (evs : Request → list Event) (d : Request → Delegated)
  (r : Request) (h : gmap string string) (removed : string) :
Forall (unmatched (Url.pathname (url r))) pre →
Forall (unmatched (Url.pathname (url r))) post →
Forall plain post →
Url.match_mount m (Url.pathname (url r)) = Some removed →
Express.handle
  (pre ++ mkLayer lab (Some m) (Plain (fun x hx => (evs x, delegate (d x) x hx)))
       :: post ++ rest) None r h =
  let x := Express.trim_prefix removed r in
  Express.prepend (Invoke lab x :: evs x) (App.conclude rest (d x) r h).
Proof.
intros Hpre Hpost Hplain Hm.
rewrite handle_past by exact Hpre.
rewrite handle_mounted, Hm. cbv zeta.
assert (Hl : Express.layer_match (mkLayer lab (Some m) (Plain (fun x hx => (evs x, delegate (d x) x hx))))
               (Url.pathname (url r)) = Some removed) by exact Hm.
destruct (d _) as [|e|code b]; simpl.
- rewrite (restore_trim _ _ _ Hl). by rewrite handle_past.
- rewrite (restore_trim _ _ _ Hl). by rewrite handle_past_error.
- unfold Express.prepend; simpl. by rewrite app_nil_r.
Qed.

(** The token gate in front of a route: without a valid token it answers
  itself; with one, the next layer sees the request with the identity
  attached. *)
Lemma gated_route (pre rest : list Layer) (gate : Label) (m : string)
  (r : Request) (h : gmap string string) (removed : string) :
Forall (unmatched (Url.pathname (url r))) pre →
Url.match_mount m (Url.pathname (url r)) = Some removed →
Express.handle
  (pre ++ mkLayer gate (Some m) (Plain (App.verifyJwt W)) :: rest) None r h =
  let x := Express.trim_prefix removed r in
  match decodeBearer W x with
  | None =>
      ([Invoke gate x],
       Responded (reply (authFailure W x).1 (authFailure W x).2 h))
  | Some identity =>
      Express.prepend [Invoke gate x]
        (Express.handle rest None (set_user identity r) h)
  end.
Proof.
intros Hpre Hm.
rewrite handle_past by exact Hpre.
rewrite handle_mounted, Hm. cbv zeta. unfold App.verifyJwt.
assert (Hl : Express.layer_match (mkLayer gate (Some m) (Plain (App.verifyJwt W)))
               (Url.pathname (url r)) = Some removed) by exact Hm.
destruct (decodeBearer W _) as [identity|]; [|reflexivity].
by rewrite (restore_trim_user _ _ _ _ Hl).
Qed.

End Dispatch.

Section AppRoutes.

Context (W : World).

Lemma docs_plain : Forall plain (App.docs W).
Proof.
unfold App.docs. destruct (server_docs (config W));
  repeat apply Forall_cons_2; try apply Forall_nil_2; by eexists.
Qed.

(** A path below one of the four route prefixes is not below [/api/docs],
  and the other way round. *)
Lemma docs_unmatched (m p removed : string) :
ci_prefix m "/api/docs" || ci_prefix "/api/docs" m = false →
Url.match_mount m p = Some removed →
Forall (unmatched p) (App.docs W).
Proof.
intros Hno Hm. unfold App.docs. destruct (server_docs (config W));
  repeat apply Forall_cons_2; try apply Forall_nil_2.
exact (match_mount_excl _ _ _ _ Hno Hm).
Qed.

Ltac elsewhere Hm :=
repeat first
  [ apply Forall_nil_2
  | apply Forall_cons_2
  | apply Forall_app_2
  | by eexists
  | apply docs_plain
  | eapply docs_unmatched; [|exact Hm]; reflexivity
  | eapply match_mount_excl; [|exact Hm]; reflexivity ].

Lemma route_auth (r : Request) (h : gmap string string) (removed : string) :
Url.match_mount "/api/auth" (Url.pathname (url r)) = Some removed →
Express.handle (App.routes W ++ App.terminals W) None r h =
  let x := Express.trim_prefix removed r in
  Express.prepend [Invoke AuthRoutes x]
    (App.conclude (App.terminals W) (authRoutes W x) r h).
Proof.
intros Hm.
refine (delegated_route []
          ([App.useMailer W; App.usePaymentsGate W; App.usePayments W;
            App.useGraphqlGate W; App.useGraphql W] ++ App.docs W)
          (App.terminals W) AuthRoutes _ (fun _ => []) (authRoutes W) r h removed _ _ _ Hm);
  elsewhere Hm.
Qed.

Lemma route_mailer (r : Request) (h : gmap string string) (removed : string) :
Url.match_mount "/api/mailer" (Url.pathname (url r)) = Some removed →
Express.handle (App.routes W ++ App.terminals W) None r h =
  let x := Express.trim_prefix removed r in
  Express.prepend [Invoke MailerRoutes x]
    (App.conclude (App.terminals W) (mailerRoutes W x) r h).
Proof.
intros Hm.
refine (delegated_route [App.useAuth W]
          ([App.usePaymentsGate W; App.usePayments W;
            App.useGraphqlGate W; App.useGraphql W] ++ App.docs W)
          (App.terminals W) MailerRoutes _ (fun _ => []) (mailerRoutes W) r h removed _ _ _ Hm);
  elsewhere Hm.
Qed.

Lemma route_payments (r : Request) (h : gmap string string) (removed : string) :
Url.match_mount "/api/payments" (Url.pathname (url r)) = Some removed →
Express.handle (App.routes W ++ App.terminals W) None r h =
  let x := Express.trim_prefix removed r in
  match decodeBearer W x with
  | None =>
      ([Invoke PaymentsVerifyJwt x],
       Responded (reply (authFailure W x).1 (authFailure W x).2 h))
  | Some identity =>
      let x' := set_user identity x in
      Express.prepend [Invoke PaymentsVerifyJwt x; Invoke PaymentRoutes x']
        (App.conclude (App.terminals W) (paymentRoutes W x')
           (set_user identity r) h)
  end.
Proof.
intros Hm. cbv zeta.
etransitivity;
  [exact (gated_route W [App.useAuth W; App.useMailer W]
            (App.usePayments W
               :: ([App.useGraphqlGate W; App.useGraphql W] ++ App.docs W)
               ++ App.terminals W)
            PaymentsVerifyJwt _ r h removed ltac:(elsewhere Hm) Hm)|].
cbv zeta. destruct (decodeBearer W _) as [identity|]; [|reflexivity].
etransitivity;
  [apply (f_equal (Express.prepend _));
   exact (delegated_route []
            ([App.useGraphqlGate W; App.useGraphql W] ++ App.docs W)
            (App.terminals W) PaymentRoutes _ (fun _ => [])
            (paymentRoutes W) (set_user identity r) h removed
            ltac:(elsewhere Hm) ltac:(elsewhere Hm) ltac:(elsewhere Hm) Hm)|].
cbv zeta. by rewrite trim_set_user, prepend_prepend.
Qed.

Lemma route_graphql (r : Request) (h : gmap string string) (removed : string) :
Url.match_mount "/api/graphql" (Url.pathname (url r)) = Some removed →
Express.handle (App.routes W ++ App.terminals W) None r h =
  let x := Express.trim_prefix removed r in
  match decodeBearer W x with
  | None =>
      ([Invoke GraphqlVerifyJwt x],
       Responded (reply (authFailure W x).1 (authFailure W x).2 h))
  | Some identity =>
      let x' := set_user identity x in
      Express.prepend
        [Invoke GraphqlVerifyJwt x; Invoke GraphqlExpress x';
         Execute (App.graphqlOptions x')]
        (App.conclude (App.terminals W)
           (graphqlServer W (App.graphqlOptions x') x')
           (set_user identity r) h)
  end.
Proof.
intros Hm. cbv zeta.
etransitivity;
  [exact (gated_route W
            [App.useAuth W; App.useMailer W; App.usePaymentsGate W;
             App.usePayments W]
            (App.useGraphql W :: App.docs W ++ App.terminals W)
            GraphqlVerifyJwt _ r h removed ltac:(elsewhere Hm) Hm)|].
cbv zeta. destruct (decodeBearer W _) as [identity|]; [|reflexivity].
etransitivity;
  [apply (f_equal (Express.prepend _));
   exact (delegated_route [] (App.docs W) (App.terminals W)
            GraphqlExpress _ (fun x => [Execute (App.graphqlOptions x)])
            (fun x => graphqlServer W (App.graphqlOptions x) x)
            (set_user identity r) h removed
            ltac:(elsewhere Hm) ltac:(elsewhere Hm) ltac:(elsewhere Hm) Hm)|].
cbv zeta. by rewrite trim_set_user, prepend_prepend.
Qed.

Lemma route_docs (r : Request) (h : gmap string string) (removed : string) :
server_docs (config W) = true →
Url.match_mount "/api/docs" (Url.pathname (url r)) = Some removed →
Express.handle (App.routes W ++ App.terminals W) None r h =
  let x := Express.trim_prefix removed r in
  Express.prepend [Invoke GraphiqlExpress x]
    (App.conclude (App.terminals W) (graphiqlPage W "/api/graphql" x) r h).
Proof.
intros Hdocs Hm. unfold App.routes, App.docs. rewrite Hdocs.
refine (delegated_route
          [App.useAuth W; App.useMailer W; App.usePaymentsGate W;
           App.usePayments W; App.useGraphqlGate W; App.useGraphql W]
          [] (App.terminals W)
          GraphiqlExpress _ (fun _ => []) (graphiqlPage W "/api/graphql")
          r h removed _ _ _ Hm);
  elsewhere Hm.
Qed.

End AppRoutes.

Section Cases.

Context (W : World).

Lemma unrouted_intro (p : string) :
Url.match_mount "/api/auth" p = None →
Url.match_mount "/api/mailer" p = None →
Url.match_mount "/api/payments" p = None →
Url.match_mount "/api/graphql" p = None →
(server_docs (config W) = true → Url.match_mount "/api/docs" p = None) →
unrouted W p = true.
Proof.
intros Ha Hm Hp Hg Hd. unfold unrouted, App.routes, App.docs, matches.
destruct (server_docs (config W)); simpl; unfold Express.layer_match; simpl;
  change (App.baseUrl +:+ "/auth") with "/api/auth";
  change (App.baseUrl +:+ "/mailer") with "/api/mailer";
  change (App.baseUrl +:+ "/payments") with "/api/payments";
  change App.graphqlUrl with "/api/graphql";
  change (App.baseUrl +:+ "/docs") with "/api/docs";
  rewrite ?Ha, ?Hm, ?Hp, ?Hg, ?Hd; done.
Qed.

(** The routing stage, case by case: the run through the routes and the
  terminal handlers is decided by the one prefix that matches the path,
  if any. *)
Lemma routes_cases (r : Request) (h : gmap string string) :
let p := Url.pathname (url r) in
let run := Express.handle (App.routes W ++ App.terminals W) None r h in
(∃ removed, Url.match_mount "/api/auth" p = Some removed ∧
   run = Express.prepend [Invoke AuthRoutes (Express.trim_prefix removed r)]
           (App.conclude (App.terminals W)
              (authRoutes W (Express.trim_prefix removed r)) r h))
∨ (∃ removed, Url.match_mount "/api/mailer" p = Some removed ∧
   run = Express.prepend [Invoke MailerRoutes (Express.trim_prefix removed r)]
           (App.conclude (App.terminals W)
              (mailerRoutes W (Express.trim_prefix removed r)) r h))
∨ (∃ removed, Url.match_mount "/api/payments" p = Some removed ∧
   let x := Express.trim_prefix removed r in
   run = match decodeBearer W x with
         | None =>
             ([Invoke PaymentsVerifyJwt x],
              Responded (reply (authFailure W x).1 (authFailure W x).2 h))
         | Some identity =>
             Express.prepend
               [Invoke PaymentsVerifyJwt x; Invoke PaymentRoutes (set_user identity x)]
               (App.conclude (App.terminals W)
                  (paymentRoutes W (set_user identity x)) (set_user identity r) h)
         end)
∨ (∃ removed, Url.match_mount "/api/graphql" p = Some removed ∧
   let x := Express.trim_prefix removed r in
   run = match decodeBearer W x with
         | None =>
             ([Invoke GraphqlVerifyJwt x],
              Responded (reply (authFailure W x).1 (authFailure W x).2 h))
         | Some identity =>
             Express.prepend
               [Invoke GraphqlVerifyJwt x; Invoke GraphqlExpress (set_user identity x);
                Execute (App.graphqlOptions (set_user identity x))]
               (App.conclude (App.terminals W)
                  (graphqlServer W (App.graphqlOptions (set_user identity x))
                     (set_user identity x))
                  (set_user identity r) h)
         end)
∨ (∃ removed, server_docs (config W) = true ∧
   Url.match_mount "/api/docs" p = Some removed ∧
   run = Express.prepend [Invoke GraphiqlExpress (Express.trim_prefix removed r)]
           (App.conclude (App.terminals W)
              (graphiqlPage W "/api/graphql" (Express.trim_prefix removed r)) r h))
∨ (unrouted W p = true ∧ run = Express.handle (App.terminals W) None r h).
Proof.
intros p run. subst run.
destruct (Url.match_mount "/api/auth" p) as [rm|] eqn:Ha.
{ left. exists rm. split; [done|]. by apply route_auth. }
destruct (Url.match_mount "/api/mailer" p) as [rm|] eqn:Hm.
{ right; left. exists rm. split; [done|]. by apply route_mailer. }
destruct (Url.match_mount "/api/payments" p) as [rm|] eqn:Hp.
{ do 2 right; left. exists rm. split; [done|]. by apply route_payments. }
destruct (Url.match_mount "/api/graphql" p) as [rm|] eqn:Hg.
{ do 3 right; left. exists rm. split; [done|]. by apply route_graphql. }
destruct (server_docs (config W)) eqn:Hflag.
- destruct (Url.match_mount "/api/docs" p) as [rm|] eqn:Hd.
  { do 4 right; left. exists rm. split; [done|]. split; [done|]. by apply route_docs. }
  do 5 right. assert (unrouted W p = true) as Hu.
  { apply unrouted_intro; try done. }
  split; [done|]. by apply route_none.
- do 5 right. assert (unrouted W p = true) as Hu.
  { apply unrouted_intro; try done. rewrite Hflag. discriminate. }
  split; [done|]. by apply route_none.
Qed.

End Cases.

(** ** The layers before the routes *)

Section Prelude.

Context (W : World).

Lemma app_shape :
App.app W = App.beforeCors W ++ App.useCors :: (App.routes W ++ App.terminals W).
Proof. reflexivity. Qed.

Lemma app_prelude :
App.app W = (App.beforeCors W ++ [App.useCors])
              ++ (App.routes W ++ App.terminals W).
Proof. rewrite app_shape. by rewrite <- app_assoc. Qed.

Lemma prelude_in_app (P : Layer → Prop) :
Forall P (App.app W) → Forall P (App.beforeCors W ++ [App.useCors]).
Proof. rewrite app_prelude, Forall_app. tauto. Qed.

Lemma any_respects (l : Layer) : respects R_any l.
Proof. intros err r h removed evs s _ _. by destruct s. Qed.

(** Only handlers of the stack are called. *)
Lemma handle_labels (stack : list Layer) (err : option Js.value) (r : Request)
  (h : gmap string string) (lab : Label) (x : Request) :
Forall quiet stack →
Invoke lab x ∈ (Express.handle stack err r h).1 →
lab ∈ map label stack.
Proof.
intros Hq Hin.
destruct (handle_invoked R_any (fun _ => I) (fun _ _ _ _ _ => I) stack
            ltac:(apply Forall_forall; intros; apply any_respects) Hq
            _ _ _ _ _ Hin) as (l & _ & _ & _ & Hl & <- & _).
apply list_elem_of_fmap. by exists l.
Qed.

Lemma user_respects (l : Layer) : anonymous l → respects R_user l.
Proof.
intros Hl err r h removed evs s Hm Hc. specialize (Hl _ _ _ _ _ Hc).
unfold R_user, Express.restore, Express.trim_prefix in *; simpl.
destruct s; try done; by destruct removed.
Qed.

Lemma prelude_anonymous : Forall anonymous (App.beforeCors W ++ [App.useCors]).
Proof. each_layer; handler; done. Qed.

(** A request that reaches the routes is the request that came in, with
  cookies and body attached and no identity added. *)
Lemma arrives_same (r r' : Request) (t : list Event) (h' : gmap string string) :
arrives W r t r' h' → same_request r' r ∧ user r' = user r.
Proof.
unfold arrives. intros H. split.
- refine (handle_exhausted R_request _ _ _ _ _ _ _ _ _ _ _ H).
  + intros [??]. apply same_request_refl.
  + intros [??] [??] [??]. unfold R_request; simpl. intros.
    eapply same_request_trans; eauto.
  + apply Forall_forall. intros l Hl. apply steady_respects.
    pose proof (prelude_in_app _ (app_steady W)) as Hall.
    rewrite Forall_forall in Hall. by apply Hall.
- refine (handle_exhausted R_user _ _ _ _ _ _ _ _ _ _ _ H).
  + done.
  + unfold R_user. intros [??] [??] [??]; simpl. congruence.
  + apply Forall_forall. intros l Hl. apply user_respects.
    pose proof prelude_anonymous as Hall.
    rewrite Forall_forall in Hall. by apply Hall.
Qed.

(** The three security layers come first and always hand over. *)
Lemma security_first (rest : list Layer) (r : Request) (h : gmap string string) :
Express.handle (App.securityHeaders W ++ rest) None r h =
  Express.prepend
    [Invoke Helmet r; Invoke ReferrerPolicy r; Invoke ContentSecurityPolicy r]
    (Express.handle rest None r (secured W r h)).
Proof.
unfold App.securityHeaders.
change ([?a; ?b; ?c] ++ rest) with (a :: b :: c :: rest).
rewrite handle_unmounted. unfold App.helmet at 1. cbv beta iota.
rewrite handle_unmounted. unfold App.referrerPolicy at 1. cbv beta iota.
rewrite handle_unmounted. unfold App.contentSecurityPolicyHeader at 1.
cbv beta iota. by rewrite !prepend_prepend.
Qed.

Lemma cors_step (rest : list Layer) (r : Request) (h : gmap string string) :
Express.handle (App.useCors :: rest) None r h =
  match method r with
  | OPTIONS =>
      ([Invoke Cors r],
       Responded (reply App.optionsSuccessStatus NoBody (App.preflightHeaders r h)))
  | _ => Express.prepend [Invoke Cors r]
           (Express.handle rest None r (App.corsHeaders h))
  end.
Proof.
unfold App.useCors. rewrite handle_unmounted. unfold App.cors.
by destruct (method r).
Qed.

(** One request through the application, split at the CORS middleware. *)
Lemma serve_split (r : Request) :
App.serve W r =
  match Express.handle (App.beforeCors W) None r App.initialHeaders with
  | (t, Responded resp) => (t, Responded resp)
  | (t, Exhausted (Some e) r1 h1) =>
      Express.prepend t (Express.handle (App.terminals W) (Some e) r1 h1)
  | (t, Exhausted None r1 h1) =>
      match method r1 with
      | OPTIONS =>
          (t ++ [Invoke Cors r1],
           Responded (reply App.optionsSuccessStatus NoBody
                        (App.preflightHeaders r1 h1)))
      | _ =>
          Express.prepend (t ++ [Invoke Cors r1])
            (Express.handle (App.routes W ++ App.terminals W) None r1
               (App.corsHeaders h1))
      end
  end.
Proof.
unfold App.serve. rewrite app_shape, handle_app.
destruct (Express.handle (App.beforeCors W) _ _ _) as [t [resp|[e|] r1 h1]];
  [reflexivity| |].
- unfold App.useCors. by rewrite handle_plain_error, routes_error.
- rewrite cors_step. destruct (method r1); try by rewrite prepend_prepend.
  reflexivity.
Qed.

Lemma serve_arrives (r r' : Request) (t : list Event) (h' : gmap string string) :
arrives W r t r' h' →
App.serve W r =
  Express.prepend t
    (Express.handle (App.routes W ++ App.terminals W) None r' h').
Proof.
unfold arrives, App.serve. intros H. by rewrite app_prelude, handle_app, H.
Qed.

End Prelude.

(** ** The unknown-route handler *)

Section UnknownRoute.

Context (W : World).

Lemma stringify_unknownRoute (route : string) :
Js.stringify (unknownRouteBody route) = unknownRouteText route.
Proof.
unfold unknownRouteBody, unknownRouteText, quoted.
cbn [Js.stringify map fst snd Js.commas fold_left].
unfold Js.literal at 1. rewrite !append_assoc. reflexivity.
Qed.

(** Under its contract, [formatError] hands the literal of the handler
  through. *)
Lemma format_appError (r : Request) :
formats_AppError (formatError W) →
formatError W (App.appError r) =
  {| message := "Unknown route requested";
     statusCode := Js.Str "404";
     jsonResponse := Js.Arr [
       Js.Obj [("statusCode", Js.Str "404");
               ("message", Js.Str "Unknown route requested");
               ("code", Js.Str "UNKNOWN_ROUTE");
               ("meta", Js.Obj [("route", Js.Str (url r))])]] |}.
Proof.
intros H. unfold App.appError. apply H; try reflexivity.
Qed.

(** What the unknown-route handler sends. *)
Lemma unknown_response (r : Request) (h : gmap string string) :
formats_AppError (formatError W) →
let resp := App.errorResponse (formatError W (App.appError r)) h in
status resp = Js.Str "404" ∧
Js.wire_status (status resp) = Some 404%Z ∧
content resp = JsonBody (unknownRouteBody (url r)) ∧
body_text resp = Some (unknownRouteText (url r)).
Proof.
intros H. cbv zeta. rewrite (format_appError r H).
unfold App.errorResponse, Express.json_response, body_text; cbn [status content statusCode jsonResponse].
repeat split. by rewrite <- stringify_unknownRoute.
Qed.

End UnknownRoute.


Section Runs.

Context (W : World).

Lemma serve_prelude (r : Request) :
App.serve W r =
  match Express.handle (App.beforeCors W ++ [App.useCors]) None r
          App.initialHeaders with
  | (t, Responded resp) => (t, Responded resp)
  | (t, Exhausted err r' h') =>
      Express.prepend t
        (Express.handle (App.routes W ++ App.terminals W) err r' h')
  end.
Proof. unfold App.serve. by rewrite app_prelude, handle_app. Qed.

Lemma prelude_labels (err : option Js.value) (r : Request)
  (h : gmap string string) (lab : Label) (x : Request) :
Invoke lab x ∈ (Express.handle (App.beforeCors W ++ [App.useCors]) err r h).1 →
lab ∈ early.
Proof.
intros Hin. apply handle_labels in Hin; [exact Hin|].
apply prelude_in_app, app_quiet.
Qed.

End Runs.

(** A label that is not in a list that is written out. *)
Ltac not_listed H :=
  unfold early in H;
  repeat (apply elem_of_cons in H as [H|H]; [discriminate H|]);
  by apply elem_of_nil in H.

(** Membership of a call in a trace that is written out. *)
Ltac in_trace H :=
  unfold Express.prepend, App.conclude in H; cbn [fst snd] in H;
  repeat first
    [ rewrite elem_of_app in H
    | rewrite elem_of_cons in H
    | rewrite elem_of_nil in H ].

Section UnknownRouteCalled.

Context (W : World).

Lemma meta_route_unknown (r : Request) (h : gmap string string) :
formats_AppError (formatError W) →
meta_route (App.errorResponse (formatError W (App.appError r)) h)
= Some (Js.Str (url r)).
Proof.
intros Hf. destruct (unknown_response W r h Hf) as (_ & _ & Hc & _).
unfold meta_route. by rewrite Hc.
Qed.

(** If the unknown-route handler is called once the layers after the
  routes take over, it is called with the request they are given, and
  the response is its envelope. *)
Lemma concluded_unknown (d : Delegated) (r x : Request) (h : gmap string string)
  (pre t : list Event) (resp : Response) :
formats_AppError (formatError W) →
(∀ y, Invoke UnknownRoute y ∉ pre) →
Express.prepend pre (App.conclude (App.terminals W) d r h) = (t, Responded resp) →
Invoke UnknownRoute x ∈ t →
x = r ∧ meta_route resp = Some (Js.Str (url r)).
Proof.
intros Hf Hpre Hrun Hin. destruct d as [|e|code b]; unfold App.conclude in Hrun.
- rewrite terminals_unknown in Hrun. cbv zeta in Hrun.
  unfold Express.prepend in Hrun; cbn [fst snd] in Hrun.
  injection Hrun as <- <-. in_trace Hin.
  destruct Hin as [Hin|[Hin|[Hin|[]]]]; [by apply Hpre in Hin| |discriminate].
  injection Hin as ->. split; [done|]. by apply meta_route_unknown.
- rewrite terminals_error in Hrun. cbv zeta in Hrun.
  unfold Express.prepend in Hrun; cbn [fst snd] in Hrun.
  injection Hrun as <- <-. in_trace Hin.
  destruct Hin as [Hin|[Hin|[Hin|[]]]]; [by apply Hpre in Hin|discriminate..].
- unfold Express.prepend in Hrun; cbn [fst snd] in Hrun.
  injection Hrun as <- <-. in_trace Hin.
  destruct Hin as [Hin|[]]. by apply Hpre in Hin.
Qed.

End UnknownRouteCalled.

(** C10.  Whenever the unknown-route handler is called, the request
    object it sees has the URL of the incoming request, query string
    included (not the path only), and that URL is [errors[0].meta.route] of
    the response.  [formatError] is taken with the contract of
    section 4.5. *)
Theorem unknown_route_meta_is_url (W : World) (r x : Request) (t : list Event)
    (resp : Response) :
  formats_AppError (formatError W) →
  App.serve W r = (t, Responded resp) →
  Invoke UnknownRoute x ∈ t →
  url x = url r ∧ meta_route resp = Some (Js.Str (url r)).
Proof.
  intros Hf Hrun Hin. rewrite serve_prelude in Hrun.
  pose proof (prelude_labels W None r App.initialHeaders UnknownRoute) as Hl.
  destruct (Express.handle (App.beforeCors W ++ [App.useCors]) _ _ _)
    as [t0 [resp0|[e|] r' h']] eqn:Hpre; cbn [fst] in Hl.
  - injection Hrun as <- <-. apply Hl in Hin. not_listed Hin.
  - rewrite routes_error, terminals_error in Hrun. cbv zeta in Hrun.
    unfold Express.prepend in Hrun; cbn [fst snd] in Hrun.
    injection Hrun as <- <-. in_trace Hin.
    destruct Hin as [Hin|[Hin|[Hin|[]]]]; [|discriminate..].
    apply Hl in Hin. not_listed Hin.
  - destruct (arrives_same W _ _ _ _ Hpre) as [(_ & Hurl & _) _].
    rewrite <- Hurl.
    assert (Hfin : ∀ pre d r1, url r1 = url r' →
      (∀ y, Invoke UnknownRoute y ∉ pre) →
      Express.prepend t0
        (Express.prepend pre (App.conclude (App.terminals W) d r1 h'))
        = (t, Responded resp) →
      url x = url r' ∧ meta_route resp = Some (Js.Str (url r'))).
    { intros pre d r1 Hr1 Hno Hrun'. rewrite prepend_prepend in Hrun'.
      rewrite <- Hr1.
      refine ((fun H => conj (f_equal url (proj1 H)) (proj2 H))
                (concluded_unknown W d r1 x h' _ t resp Hf _ Hrun' Hin)).
      intros y Hy. apply elem_of_app in Hy as [Hy|Hy]; [|by apply Hno in Hy].
      apply Hl in Hy. not_listed Hy. }
    destruct (routes_cases W r' h')
      as [(rm & Hm & Hr)|[(rm & Hm & Hr)|[(rm & Hm & Hr)|[(rm & Hm & Hr)|
          [(rm & Hd & Hm & Hr)|[Hu Hr]]]]]]; cbv zeta in Hr; rewrite Hr in Hrun.
    + eapply Hfin; [| |exact Hrun]; [done|].
      intros y Hy. in_trace Hy. destruct Hy as [Hy|[]]. discriminate.
    + eapply Hfin; [| |exact Hrun]; [done|].
      intros y Hy. in_trace Hy. destruct Hy as [Hy|[]]. discriminate.
    + destruct (decodeBearer W _) as [identity|].
      * eapply Hfin; [| |exact Hrun]; [done|].
        intros y Hy. in_trace Hy. destruct Hy as [Hy|[Hy|[]]]; discriminate.
      * unfold Express.prepend in Hrun; cbn [fst snd] in Hrun.
        injection Hrun as <- <-. in_trace Hin.
        destruct Hin as [Hin|[Hin|[]]]; [|discriminate].
        apply Hl in Hin. not_listed Hin.
    + destruct (decodeBearer W _) as [identity|].
      * eapply Hfin; [| |exact Hrun]; [done|].
        intros y Hy. in_trace Hy. destruct Hy as [Hy|[Hy|[Hy|[]]]]; discriminate.
      * unfold Express.prepend in Hrun; cbn [fst snd] in Hrun.
        injection Hrun as <- <-. in_trace Hin.
        destruct Hin as [Hin|[Hin|[]]]; [|discriminate].
        apply Hl in Hin. not_listed Hin.
    + eapply Hfin; [| |exact Hrun]; [done|].
      intros y Hy. in_trace Hy. destruct Hy as [Hy|[]]. discriminate.
    + eapply (Hfin [] Pass r'); [done| |by rewrite prepend_nil].
      intros y Hy. by apply elem_of_nil in Hy.
Qed.

(** ** The sample world *)

Lemma formatError_spec_AppError : formats_AppError formatError_spec.
Proof.
  intros props m code entries Hn Hm Hc He Hall.
  unfold formatError_spec, Js.get. rewrite Hn, Hm, Hc, He, Hall. reflexivity.
Qed.




(** [GET /x?y=1]: the path is [/x], the route in the envelope is
    [/x?y=1]. *)
Lemma unknown_route_meta_is_url_witness :
  let r := incoming GET "/x?y=1" ∅ EmptyString in
  let run := App.serve (Sample.world false) r in
  run.2 = Responded (answer run.2) ∧
  Url.pathname (url r) = "/x" ∧
  meta_route (answer run.2) = Some (Js.Str "/x?y=1").
Proof.
  intros r run.
  assert (Hrun : run = (run.1, Responded (answer run.2)))
    by (vm_compute; reflexivity).
  assert (Hin : run.1 !! 9%nat =
                Some (Invoke UnknownRoute
                        (set_body (Js.Obj [])
                           (set_body (Js.Obj []) (set_cookies (Js.Obj []) r)))))
    by (vm_compute; reflexivity).
  split; [vm_compute; reflexivity|]. split; [reflexivity|].
  exact (proj2 (unknown_route_meta_is_url (Sample.world false) r _ _ _
                  formatError_spec_AppError Hrun
                  (list_elem_of_lookup_2 _ _ _ Hin))).
Defined.

(** ** Who is called at the routes *)

Section Invoked.

Context (W : World).

Lemma conclude_calls (d : Delegated) (r y : Request) (h : gmap string string)
(lab : Label) :
Invoke lab y ∈ (App.conclude (App.terminals W) d r h).1 →
lab = UnknownRoute ∨ lab = ErrorMiddleware.
Proof.
destruct d as [|e|code b]; unfold App.conclude;
rewrite ?terminals_unknown, ?terminals_error; cbv zeta; cbn [fst];
intros Hin; in_trace Hin.
- destruct Hin as [[= -> _]|[Hin|[]]]; [by left|discriminate].
- destruct Hin as [[= -> _]|[Hin|[]]]; [by right|discriminate].
- destruct Hin.
Qed.

(** Every call made by the routing stage, by the prefix that matched. *)
Lemma routes_invoked (r y : Request) (h : gmap string string) (lab : Label) :
let p := Url.pathname (url r) in
Invoke lab y ∈ (Express.handle (App.routes W ++ App.terminals W) None r h).1 →
(lab = UnknownRoute ∨ lab = ErrorMiddleware)
∨ (∃ removed, Url.match_mount "/api/auth" p = Some removed ∧
   lab = AuthRoutes ∧ y = Express.trim_prefix removed r)
∨ (∃ removed, Url.match_mount "/api/mailer" p = Some removed ∧
   lab = MailerRoutes ∧ y = Express.trim_prefix removed r)
∨ (∃ removed gate downstream m,
   (m, gate, downstream) ∈ protected ∧
   Url.match_mount m p = Some removed ∧
   ((lab = gate ∧ y = Express.trim_prefix removed r)
    ∨ (∃ identity,
         decodeBearer W (Express.trim_prefix removed r) = Some identity ∧
         lab = downstream ∧
         y = set_user identity (Express.trim_prefix removed r))))
∨ (∃ removed, server_docs (config W) = true ∧
   Url.match_mount "/api/docs" p = Some removed ∧
   lab = GraphiqlExpress ∧ y = Express.trim_prefix removed r).
Proof.
intros p.
destruct (routes_cases W r h)
as [(rm & Hm & Hr)|[(rm & Hm & Hr)|[(rm & Hm & Hr)|[(rm & Hm & Hr)|
    [(rm & Hd & Hm & Hr)|[Hu Hr]]]]]]; cbv zeta in Hr; rewrite Hr; clear Hr.
- unfold Express.prepend; cbn [fst]. rewrite elem_of_app, elem_of_cons, elem_of_nil.
intros [[[= -> ->]|[]]|Hin]; [|left; by eapply conclude_calls].
right; left. by exists rm.
- unfold Express.prepend; cbn [fst]. rewrite elem_of_app, elem_of_cons, elem_of_nil.
intros [[[= -> ->]|[]]|Hin]; [|left; by eapply conclude_calls].
do 2 right; left. by exists rm.
- assert (Hp : ("/api/payments", PaymentsVerifyJwt, PaymentRoutes) ∈ protected)
  by apply list_elem_of_here.
destruct (decodeBearer W _) as [identity|] eqn:Hdec.
+ unfold Express.prepend; cbn [fst].
  rewrite elem_of_app, !elem_of_cons, elem_of_nil.
  intros [[[= -> ->]|[[= -> ->]|[]]]|Hin]; [| |left; by eapply conclude_calls].
  * do 3 right; left. exists rm, PaymentsVerifyJwt, PaymentRoutes, "/api/payments".
    split; [done|]. split; [done|]. by left.
  * do 3 right; left. exists rm, PaymentsVerifyJwt, PaymentRoutes, "/api/payments".
    split; [done|]. split; [done|]. right. by exists identity.
+ cbn [fst]. rewrite elem_of_cons, elem_of_nil. intros [[= -> ->]|[]].
  do 3 right; left. exists rm, PaymentsVerifyJwt, PaymentRoutes, "/api/payments".
  split; [done|]. split; [done|]. by left.
- assert (Hp : ("/api/graphql", GraphqlVerifyJwt, GraphqlExpress) ∈ protected)
  by (apply list_elem_of_further, list_elem_of_here).
destruct (decodeBearer W _) as [identity|] eqn:Hdec.
+ unfold Express.prepend; cbn [fst].
  rewrite elem_of_app, !elem_of_cons, elem_of_nil.
  intros [[[= -> ->]|[[= -> ->]|[Hin|[]]]]|Hin];
    [| |discriminate|left; by eapply conclude_calls].
  * do 3 right; left. exists rm, GraphqlVerifyJwt, GraphqlExpress, "/api/graphql".
    split; [done|]. split; [done|]. by left.
  * do 3 right; left. exists rm, GraphqlVerifyJwt, GraphqlExpress, "/api/graphql".
    split; [done|]. split; [done|]. right. by exists identity.
+ cbn [fst]. rewrite elem_of_cons, elem_of_nil. intros [[= -> ->]|[]].
  do 3 right; left. exists rm, GraphqlVerifyJwt, GraphqlExpress, "/api/graphql".
  split; [done|]. split; [done|]. by left.
- unfold Express.prepend; cbn [fst]. rewrite elem_of_app, elem_of_cons, elem_of_nil.
intros [[[= -> ->]|[]]|Hin]; [|left; by eapply conclude_calls].
do 4 right. by exists rm.
- rewrite terminals_unknown. cbv zeta; cbn [fst].
rewrite !elem_of_cons, elem_of_nil. intros [[= -> _]|[Hin|[]]]; [|discriminate].
left. by left.
Qed.

(** Every call made while a request is served: by a layer registered
before the routes, by the error handler, or by the routing stage
entered with the request as it arrives there. *)
Lemma serve_invoked (r y : Request) (lab : Label) :
Invoke lab y ∈ (App.serve W r).1 →
lab ∈ early
∨ lab = ErrorMiddleware
∨ (∃ t0 r' h', arrives W r t0 r' h' ∧
   Invoke lab y ∈
     (Express.handle (App.routes W ++ App.terminals W) None r' h').1).
Proof.
rewrite serve_prelude.
pose proof (prelude_labels W None r App.initialHeaders lab y) as Hl.
destruct (Express.handle (App.beforeCors W ++ [App.useCors]) _ _ _)
as [t0 [resp0|[e|] r' h']] eqn:Hpre; cbn [fst] in *.
- intros Hin. left. by apply Hl.
- rewrite routes_error, terminals_error. cbv zeta.
unfold Express.prepend; cbn [fst].
rewrite elem_of_app, !elem_of_cons, elem_of_nil.
intros [Hin|[[= -> _]|[Hin|[]]]]; [left; by apply Hl|by right; left|discriminate].
- unfold Express.prepend; cbn [fst]. rewrite elem_of_app.
intros [Hin|Hin]; [left; by apply Hl|].
do 2 right. by exists t0, r', h'.
Qed.

End Invoked.

(** ** The token gate *)

Section Gate.

Context (W : World).

Lemma protected_cases (m : string) (gate downstream : Label) :
(m, gate, downstream) ∈ protected →
(m = "/api/payments" ∧ gate = PaymentsVerifyJwt ∧ downstream = PaymentRoutes)
∨ (m = "/api/graphql" ∧ gate = GraphqlVerifyJwt ∧ downstream = GraphqlExpress).
Proof.
unfold protected. rewrite !elem_of_cons, elem_of_nil.
intros [[= -> -> ->]|[[= -> -> ->]|[]]]; [by left|by right].
Qed.

End Gate.

(** C2, amended.  For every request: a downstream handler of a protected
    prefix (the payment routes, the GraphQL server) is called only after
    the token gate of that prefix was called and decoded an identity, and
    it sees the request with that identity attached.  For a request that
    reaches the routes below [/api/payments] or [/api/graphql]: if its
    token does not decode, the gate ends the response with the
    authentication failure and nothing else is called; if it does, the
    downstream handler is the next one called.  The gate is the one of
    section 4.3. *)
Theorem token_gate_guards (W : World) (r : Request) :
  (∀ x downstream,
     downstream ∈ [PaymentRoutes; GraphqlExpress] →
     Invoke downstream x ∈ (App.serve W r).1 →
     ∃ y identity gate,
       decodeBearer W y = Some identity ∧ x = set_user identity y ∧
       gate ∈ [PaymentsVerifyJwt; GraphqlVerifyJwt] ∧
       Invoke gate y ∈ (App.serve W r).1)
  ∧
  (∀ t0 r' h' m gate downstream removed,
     arrives W r t0 r' h' →
     (m, gate, downstream) ∈ protected →
     Url.match_mount m (Url.pathname (url r)) = Some removed →
     let x := Express.trim_prefix removed r' in
     match decodeBearer W x with
     | None =>
         App.serve W r =
           (t0 ++ [Invoke gate x],
            Responded (reply (authFailure W x).1 (authFailure W x).2 h'))
     | Some identity =>
         ∃ t1, (App.serve W r).1 =
                 t0 ++ Invoke gate x :: Invoke downstream (set_user identity x) :: t1
     end).
Proof.
  split.
  - intros x downstream Hd Hin.
    destruct (serve_invoked W r x downstream Hin)
      as [Hl|[->|(t0 & r' & h' & Harr & Hin')]].
    + rewrite !elem_of_cons, elem_of_nil in Hd.
      destruct Hd as [->|[->|[]]]; not_listed Hl.
    + rewrite !elem_of_cons, elem_of_nil in Hd. by destruct Hd as [?|[?|[]]].
    + rewrite (serve_arrives W _ _ _ _ Harr).
      assert (Hgate : ∀ gate y,
                Invoke gate y ∈
                  (Express.handle (App.routes W ++ App.terminals W) None r' h').1 →
                Invoke gate y ∈
                  (Express.prepend t0
                     (Express.handle (App.routes W ++ App.terminals W) None r' h')).1).
      { intros gate y Hy. unfold Express.prepend; cbn [fst].
        apply elem_of_app. by right. }
      destruct (routes_invoked W r' x h' downstream Hin')
        as [[->| ->]|[(rm & _ & -> & _)|[(rm & _ & -> & _)|
            [(rm & gate & dn & m & Hp & Hm & Hcase)|(rm & _ & _ & -> & _)]]]];
        rewrite !elem_of_cons, elem_of_nil in Hd;
        try (by destruct Hd as [?|[?|[]]]).
      destruct (protected_cases _ _ _ Hp) as [(-> & -> & ->)|(-> & -> & ->)].
      * destruct Hcase as [[-> _]|(identity & Hdec & -> & ->)];
          [by destruct Hd as [?|[?|[]]]|].
        exists (Express.trim_prefix rm r'), identity, PaymentsVerifyJwt.
        split; [done|]. split; [done|].
        split; [apply list_elem_of_here|]. apply Hgate.
        rewrite (route_payments W r' h' rm Hm). cbv zeta. rewrite Hdec.
        unfold Express.prepend; cbn [fst]. apply elem_of_app. left.
        apply list_elem_of_here.
      * destruct Hcase as [[-> _]|(identity & Hdec & -> & ->)];
          [by destruct Hd as [?|[?|[]]]|].
        exists (Express.trim_prefix rm r'), identity, GraphqlVerifyJwt.
        split; [done|]. split; [done|].
        split; [apply list_elem_of_further, list_elem_of_here|]. apply Hgate.
        rewrite (route_graphql W r' h' rm Hm). cbv zeta. rewrite Hdec.
        unfold Express.prepend; cbn [fst]. apply elem_of_app. left.
        apply list_elem_of_here.
  - intros t0 r' h' m gate downstream removed Harr Hp Hm x.
    destruct (arrives_same W _ _ _ _ Harr) as [(_ & Hurl & _) _].
    rewrite <- Hurl in Hm. rewrite (serve_arrives W _ _ _ _ Harr).
    destruct (protected_cases _ _ _ Hp) as [(-> & -> & ->)|(-> & -> & ->)].
    + rewrite (route_payments W r' h' removed Hm). cbv zeta. fold x.
      destruct (decodeBearer W x) as [identity|]; [|reflexivity].
      eexists. unfold Express.prepend; cbn [fst]. reflexivity.
    + rewrite (route_graphql W r' h' removed Hm). cbv zeta. fold x.
      destruct (decodeBearer W x) as [identity|]; [|reflexivity].
      eexists. unfold Express.prepend; cbn [fst]. reflexivity.
Qed.

(** C6.  A request that reaches the routes below [/api/graphql] with a
    token that decodes to [identity] runs the GraphQL server with the
    options [{ schema: graphqlSchema, context: { req, user } }], where
    [req] is the request object the handler is given (the request with the
    identity attached by the gate) and [user] is that identity; the reply
    of the server is the response.  This holds for every method that
    reaches the routes, POST among them. *)
Theorem graphql_context (W : World) (r r' : Request) (t0 : list Event)
    (h' : gmap string string) (removed : string) (identity : Js.value) :
  arrives W r t0 r' h' →
  Url.match_mount "/api/graphql" (Url.pathname (url r)) = Some removed →
  let x := Express.trim_prefix removed r' in
  decodeBearer W x = Some identity →
  let req := set_user identity x in
  let options :=
    {| Graphql.schema := Graphql.graphqlSchema;
       Graphql.context := {| Graphql.req := req; Graphql.user := Some identity |} |} in
  App.serve W r =
    Express.prepend
      (t0 ++ [Invoke GraphqlVerifyJwt x; Invoke GraphqlExpress req; Execute options])
      (App.conclude (App.terminals W) (graphqlServer W options req)
         (set_user identity r') h').
Proof.
  intros Harr Hm x Hdec req options.
  destruct (arrives_same W _ _ _ _ Harr) as [(_ & Hurl & _) _].
  rewrite <- Hurl in Hm. rewrite (serve_arrives W _ _ _ _ Harr).
  rewrite (route_graphql W r' h' removed Hm). cbv zeta. fold x. rewrite Hdec.
  by rewrite prepend_prepend.
Qed.



(** ** First match and longest match *)

Section Longest.





Lemma first_match_app (s1 s2 : list Layer) (p : string) :
first_match (s1 ++ s2) p =
match first_match s1 p with
| Some l => Some l
| None => first_match s2 p
end.
Proof.
induction s1 as [|l s1 IH]; simpl; [done|]. by destruct (matches l p).
Qed.

Lemma first_match_in (stack : list Layer) (p : string) (l : Layer) :
first_match stack p = Some l → l ∈ stack.
Proof.
induction stack as [|l0 stack IH]; simpl; [discriminate|].
destruct (matches l0 p).
- intros [= <-]. apply list_elem_of_here.
- intros H. apply list_elem_of_further. by apply IH.
Qed.

Lemma first_match_none (stack : list Layer) (p : string) :
first_match stack p = None ↔
forallb (fun l => negb (matches l p)) stack = true.
Proof.
induction stack as [|l0 stack IH]; simpl; [done|].
destruct (matches l0 p); simpl; [split; discriminate|exact IH].
Qed.

(** The first call of a run in normal mode is the call of the first
matching layer. *)
Lemma handle_first (stack : list Layer) (r : Request) (h : gmap string string)
(l : Layer) :
first_match stack (Url.pathname (url r)) = Some l → plain l →
∃ removed t,
Express.layer_match l (Url.pathname (url r)) = Some removed ∧
(Express.handle stack None r h).1
  = Invoke (label l) (Express.trim_prefix removed r) :: t.
Proof.
induction stack as [|l0 stack IH]; simpl; [discriminate|].
unfold matches.
destruct (Express.layer_match l0 _) as [removed|] eqn:Hm.
- intros [= <-] [f Hf]. rewrite Hf; cbn [Express.call].
exists removed. destruct (f _ h) as [evs [r1 h1|e r1 h1|resp]];
  eexists; (split; [done|]); unfold Express.prepend; cbn [fst]; reflexivity.
- intros Hfirst Hp. exact (IH Hfirst Hp).
Qed.

(** At the routing stage some layer always matches: a route, or else the
unknown-route handler, which takes every path. *)
Lemma routes_first_match (W : World) (p : string) :
∃ l, first_match (App.routes W ++ App.terminals W) p = Some l ∧
   plain l ∧ (label l ∉ early) ∧
   (label l = UnknownRoute ↔ unrouted W p = true).
Proof.
assert (Hroutes : ∀ l, l ∈ App.routes W →
        plain l ∧ label l ≠ UnknownRoute ∧ (label l ∉ early)).
{ intros l Hl. unfold App.routes, App.docs in Hl.
destruct (server_docs (config W)); cbn [app] in Hl;
  rewrite !elem_of_cons, elem_of_nil in Hl;
  repeat (destruct Hl as [->|Hl];
          [split; [by eexists|split; [discriminate|intros H; not_listed H]]|]);
  done. }
rewrite first_match_app. unfold unrouted.
destruct (first_match (App.routes W) p) as [l|] eqn:Hf.
- exists l. destruct (Hroutes l (first_match_in _ _ _ Hf)) as (Hp & Hlab & He).
split; [done|]. split; [done|]. split; [done|]. split; [done|].
intros Hu. apply first_match_none in Hu. congruence.
- eexists. split; [reflexivity|]. split; [by eexists|].
split; [intros H; not_listed H|].
split; [|done]. intros _. by apply first_match_none.
Qed.

End Longest.


(** ** Response headers *)

Section Headers.

Context (W : World).

(** A header that every layer of a stack keeps is on the response. *)
Lemma handle_keeps (stack : list Layer) (k v : string) (err : option Js.value)
(r : Request) (h : gmap string string) (t : list Event) (resp : Response) :
Forall (keeps k v) stack →
h !! k = Some v →
Express.handle stack err r h = (t, Responded resp) →
sent resp !! k = Some v.
Proof.
intros Hall Hk Hrun.
destruct (handle_responded (R_header k v) (fun _ H => H)
          (fun _ _ _ H1 H2 H => H2 (H1 H)) stack
          ltac:(eapply Forall_impl; [exact Hall|apply restore_headers])
          _ _ _ _ _ Hrun)
as (l & err' & y & hy & removed & evs & Hl & HR & _ & Hc).
rewrite Forall_forall in Hall.
exact (Hall l Hl _ _ _ _ _ (HR Hk) Hc).
Qed.

Lemma app_security :
App.app W =
App.securityHeaders W ++
  (drop 3 (App.beforeCors W) ++ App.useCors :: App.routes W ++ App.terminals W).
Proof. reflexivity. Qed.



Lemma beforeCors_labels (err : option Js.value) (r : Request)
(h : gmap string string) (lab : Label) (x : Request) :
Invoke lab x ∈ (Express.handle (App.beforeCors W) err r h).1 →
lab ∈ early ∧ lab ≠ Cors.
Proof.
intros Hin. apply handle_labels in Hin.
- cbn in Hin. unfold early. rewrite !elem_of_cons, elem_of_nil in *.
split; [tauto|]. intros ->. intuition discriminate.
- pose proof (app_quiet W) as Hq. rewrite app_shape, Forall_app in Hq. tauto.
Qed.

Lemma routes_labels (err : option Js.value) (r : Request)
(h : gmap string string) (lab : Label) (x : Request) :
Invoke lab x ∈ (Express.handle (App.routes W ++ App.terminals W) err r h).1 →
lab ∉ early.
Proof.
intros Hin. apply handle_labels in Hin.
- intros He. unfold App.routes, App.docs in Hin.
destruct (server_docs (config W)); cbn in Hin;
  rewrite !elem_of_cons, elem_of_nil in Hin;
  repeat (destruct Hin as [->|Hin]; [not_listed He|]); done.
- pose proof (app_quiet W) as Hq. rewrite app_shape, Forall_app in Hq.
destruct Hq as [_ Hq]. by apply Forall_cons in Hq as [_ Hq].
Qed.

Lemma beforeCors_same (r r1 : Request) (t : list Event) (e : option Js.value)
(h h1 : gmap string string) :
Express.handle (App.beforeCors W) None r h = (t, Exhausted e r1 h1) →
same_request r1 r.
Proof.
intros H.
refine (handle_exhausted R_request _ _ _ _ _ _ _ _ _ _ _ H).
- intros [??]. apply same_request_refl.
- intros [??] [??] [??]. unfold R_request; simpl. intros.
eapply same_request_trans; eauto.
- pose proof (app_steady W) as Hs. rewrite app_shape, Forall_app in Hs.
destruct Hs as [Hs _]. eapply Forall_impl; [exact Hs|apply steady_respects].
Qed.

Lemma called_app (a b : list Event) : called (a ++ b) = called a ++ called b.
Proof. unfold called. apply omap_app. Qed.

End Headers.


(** C5, amended.  Every response to a request that reaches the CORS layer
    carries [Access-Control-Allow-Origin: http://localhost:8080], whatever
    the [Origin] header of the request.  A preflight (method OPTIONS) is
    answered by the layer with status 200 and no body; any other request is
    passed on, and the next handler called is a route or terminal
    handler. *)
Theorem cors_fixed_origin (W : World) (r x : Request) (t : list Event)
    (resp : Response) :
  App.serve W r = (t, Responded resp) →
  Invoke Cors x ∈ t →
  sent resp !! "Access-Control-Allow-Origin" = Some App.origin
  ∧ (method r = OPTIONS →
     status resp = Js.Num 200 ∧ content resp = NoBody ∧
     last (called t) = Some Cors)
  ∧ (method r ≠ OPTIONS →
     ∃ t1 lab y t2,
       t = t1 ++ Invoke Cors x :: Invoke lab y :: t2 ∧ lab ∉ early).
Proof.
  rewrite serve_split.
  pose proof (beforeCors_labels W None r App.initialHeaders Cors) as Hl.
  destruct (Express.handle (App.beforeCors W) _ _ _)
    as [t1 [resp1|[e|] r1 h1]] eqn:Hpre; cbn [fst] in Hl.
  - intros [= <- <-] Hin. by destruct (Hl x Hin).
  - rewrite terminals_error. cbv zeta. unfold Express.prepend; cbn [fst snd].
    intros [= <- <-] Hin. in_trace Hin.
    destruct Hin as [Hin|[Hin|[Hin|[]]]]; [|discriminate..].
    by destruct (Hl x Hin).
  - destruct (beforeCors_same W _ _ _ _ _ _ Hpre) as (Hmeth & _).
    destruct (method r1) eqn:Hm1; rewrite <- Hmeth;
      try (intros [= <- <-] Hin; split; [apply preflightHeaders_origin|];
           split; [|done]; intros _; split; [done|split; [done|]];
           rewrite called_app; apply last_snoc);
      intros Hrun Hin;
      destruct (Express.handle (App.routes W ++ App.terminals W) None r1
                  (App.corsHeaders h1)) as [t2 o] eqn:Hrest;
      unfold Express.prepend in Hrun; cbn [fst snd] in Hrun;
      injection Hrun as <- ->;
      (split; [eapply handle_keeps;
                 [apply routes_keep|apply corsHeaders_origin|exact Hrest]; done|]);
      (split; [done|]); intros _;
      destruct (routes_first_match W (Url.pathname (url r1))) as (l & Hf & Hp & He & _);
      destruct (handle_first _ r1 (App.corsHeaders h1) l Hf Hp) as (rm & t3 & _ & Ht);
      rewrite Hrest in Ht; cbn [fst] in Ht; subst t2;
      exists t1, (label l), (Express.trim_prefix rm r1), t3;
      (split; [|done]);
      rewrite <- app_assoc; cbn [app]; do 2 f_equal;
      pose proof (routes_labels W None r1 (App.corsHeaders h1) Cors x) as Hr;
      rewrite Hrest in Hr; cbn [fst] in Hr;
      rewrite <- app_assoc in Hin; cbn [app] in Hin;
      rewrite elem_of_app, elem_of_cons in Hin;
      (destruct Hin as [Hin|[[= ->]|Hin]];
       [by destruct (Hl x Hin)|done|
        exfalso; apply (Hr Hin); unfold early; do 10 apply list_elem_of_further;
        apply list_elem_of_here]).
Qed.

(** ** The terminal handlers *)

Section Terminals.

Context (W : World).



End Terminals.


(** ** The theorems on concrete requests *)

(** [POST /api/payments/charge] with a token that does not decode: the
    gate answers 401 and the payment routes are not called. *)
Lemma token_gate_guards_witness :
  let W := Sample.world false in
  let r := incoming POST "/api/payments/charge" (Sample.bearer "bad") EmptyString in
  ∃ t0 r' h',
    arrives W r t0 r' h' ∧
    App.serve W r =
      (t0 ++ [Invoke PaymentsVerifyJwt (Express.trim_prefix "/api/payments" r')],
       Responded (reply 401 (JsonBody Sample.unauthorized) h')).
Proof.
  intros W r.
  eassert (Harr : arrives W r _ _ _) by (unfold arrives; vm_compute; reflexivity).
  assert (Hm : Url.match_mount "/api/payments" (Url.pathname (url r))
               = Some "/api/payments") by (vm_compute; reflexivity).
  eexists _, _, _. split; [exact Harr|].
  exact (proj2 (token_gate_guards W r) _ _ _ _ _ _ _ Harr
           (list_elem_of_here _ _) Hm).
Defined.

(** [POST /api/graphql] with a token that decodes. *)
Lemma graphql_context_witness :
  let W := Sample.world false in
  let r := incoming POST "/api/graphql" (Sample.bearer "good") EmptyString in
  ∃ t0 r' h',
    arrives W r t0 r' h' ∧
    let req := set_user Sample.identity (Express.trim_prefix "/api/graphql" r') in
    let options :=
      {| Graphql.schema := Graphql.graphqlSchema;
         Graphql.context :=
           {| Graphql.req := req; Graphql.user := Some Sample.identity |} |} in
    App.serve W r =
      (t0 ++ [Invoke GraphqlVerifyJwt (Express.trim_prefix "/api/graphql" r');
              Invoke GraphqlExpress req; Execute options],
       Responded (reply 200
                    (JsonBody (Js.Obj [("data", Js.Obj [("viewer", Sample.identity)])]))
                    h')).
Proof.
  intros W r.
  eassert (Harr : arrives W r _ _ _) by (unfold arrives; vm_compute; reflexivity).
  assert (Hm : Url.match_mount "/api/graphql" (Url.pathname (url r))
               = Some "/api/graphql") by (vm_compute; reflexivity).
  eexists _, _, _. split; [exact Harr|].
  cbv zeta.
  rewrite (graphql_context W r _ _ _ "/api/graphql" Sample.identity Harr Hm
             ltac:(vm_compute; reflexivity)).
  vm_compute. reflexivity.
Defined.




(** A request from another origin than the configured one. *)
Lemma cors_fixed_origin_witness :
  let r := incoming GET "/api/mailer/send" (Sample.from "http://evil.example")
             EmptyString in
  let run := App.serve (Sample.world false) r in
  headers r !! "origin" = Some "http://evil.example" ∧
  sent (answer run.2) !! "Access-Control-Allow-Origin" = Some "http://localhost:8080".
Proof.
  intros r run.
  assert (Hrun : run = (run.1, Responded (answer run.2)))
    by (vm_compute; reflexivity).
  assert (Hin : run.1 !! 8%nat =
                Some (Invoke Cors
                        (set_body (Js.Obj [])
                           (set_body (Js.Obj []) (set_cookies (Js.Obj []) r)))))
    by (vm_compute; reflexivity).
  split; [vm_compute; reflexivity|].
  exact (proj1 (cors_fixed_origin (Sample.world false) r _ _ _ Hrun
                  (list_elem_of_lookup_2 _ _ _ Hin))).
Defined.

(** C5 as written fails: a request from [http://evil.example] is served
    (status 202 from the mailer routes) and its response carries
    [Access-Control-Allow-Origin], set to the configured origin. *)
Lemma cors_other_origin_counterexample :
  let r := incoming GET "/api/mailer/send" (Sample.from "http://evil.example")
             EmptyString in
  let run := App.serve (Sample.world false) r in
  headers r !! "origin" = Some "http://evil.example" ∧
  "http://evil.example" ≠ App.origin ∧
  run.2 = Responded (answer run.2) ∧
  sent (answer run.2) !! "Access-Control-Allow-Origin" = Some "http://localhost:8080" ∧
  status (answer run.2) = Js.Num 202 ∧
  last (called run.1) = Some MailerRoutes.
Proof.
  intros r run. split; [by vm_compute|]. split; [discriminate|].
  split; [by vm_compute|]. split; [by vm_compute|]. split; by vm_compute.
Qed.

(** C2 as written fails: a CORS preflight to [/api/payments/charge] carries
    no token, yet the response is the preflight answer of the [cors] layer
    (200, no body), not the authentication failure of the gate, which is
    not called. *)
Lemma token_gate_preflight_counterexample :
  let W := Sample.world false in
  let r := incoming OPTIONS "/api/payments/charge" ∅ EmptyString in
  let run := App.serve W r in
  Url.match_mount "/api/payments" (Url.pathname (url r)) = Some "/api/payments" ∧
  decodeBearer W r = None ∧
  run.2 = Responded (answer run.2) ∧
  status (answer run.2) = Js.Num 200 ∧
  content (answer run.2) = NoBody ∧
  status (answer run.2) ≠ Js.Num (authFailure W r).1 ∧
  last (called run.1) = Some Cors.
Proof.
  intros W r run. split; [by vm_compute|]. split; [by vm_compute|].
  split; [by vm_compute|]. split; [by vm_compute|]. split; [by vm_compute|].
  split; [by vm_compute|by vm_compute].
Qed.

(** * Further properties of the pipeline *)

(** ** Order of the calls *)

Section Order.

Context (W : World).

Lemma called_cons (lab : Label) (x : Request) (t : list Event) :
  called (Invoke lab x :: t) = lab :: called t.
Proof. reflexivity. Qed.

(** The handlers called by a run, in order, are picked from the stack in
    registration order. *)
Lemma handle_called (stack : list Layer) :
  Forall quiet stack →
  ∀ err r h, called (Express.handle stack err r h).1 `sublist_of` (label <$> stack).
Proof.
  induction 1 as [|l stack Hl _ IH]; intros err r h; simpl; [done|].
  destruct (Express.layer_match l _) as [removed|]; [|by apply sublist_cons].
  destruct (Express.call _ _ _ _) as [[evs s]|] eqn:Hc; [|by apply sublist_cons].
  pose proof (Hl _ _ _ _ _ Hc) as Hevs.
  destruct s as [r1 h1|e r1 h1|resp]; unfold Express.prepend; cbn [fst];
    rewrite ?app_comm_cons, ?called_cons; rewrite <- ?app_comm_cons, ?called_cons.
  - rewrite called_app, Hevs. apply sublist_skip, IH.
  - rewrite called_app, Hevs. apply sublist_skip, IH.
  - rewrite Hevs. apply sublist_skip, sublist_nil_l.
Qed.

Lemma app_labels_NoDup : NoDup (label <$> App.app W).
Proof.
  unfold App.app, App.beforeCors, App.securityHeaders, App.routes, App.docs,
    App.terminals.
  destruct (server_docs (config W)); cbn;
    apply (bool_decide_unpack _); by vm_compute.
Qed.

Lemma fmap_NoDup_inj {A B} (f : A → B) (l : list A) (x y : A) :
  NoDup (f <$> l) → x ∈ l → y ∈ l → f x = f y → x = y.
Proof.
  induction l as [|a l IH]; [by intros _ ?%elem_of_nil|].
  rewrite fmap_cons, NoDup_cons, !elem_of_cons. intros [Ha Hl] Hx Hy Hf.
  destruct Hx as [->|Hx], Hy as [->|Hy]; [done| | |by apply IH].
  - exfalso. apply Ha. rewrite Hf. by apply list_elem_of_fmap_2.
  - exfalso. apply Ha. rewrite <- Hf. by apply list_elem_of_fmap_2.
Qed.

(** A layer of the application is known by its label. *)
Lemma app_label_inj (l l' : Layer) :
  l ∈ App.app W → l' ∈ App.app W → label l = label l' → l = l'.
Proof. apply fmap_NoDup_inj, app_labels_NoDup. Qed.

Lemma request_respects (stack : list Layer) :
  Forall steady stack → Forall (respects R_request) stack.
Proof. intros Hs. eapply Forall_impl; [exact Hs|apply steady_respects]. Qed.

Lemma R_request_refl (x : State) : R_request x x.
Proof. apply same_request_refl. Qed.

Lemma R_request_trans (x y z : State) :
  R_request x y → R_request y z → R_request x z.
Proof. unfold R_request. intros H1 H2. eapply same_request_trans; eauto. Qed.

(** Every call made by a run of steady layers is made by a layer whose
    mount path matches the path of the request, on the request as it came
    in, relative to that mount path. *)
Lemma handle_called_matches (stack : list Layer) (err : option Js.value)
    (r y : Request) (h : gmap string string) (lab : Label) :
  Forall steady stack → Forall quiet stack →
  Invoke lab y ∈ (Express.handle stack err r h).1 →
  ∃ l removed y0,
    l ∈ stack ∧ label l = lab ∧
    Express.layer_match l (Url.pathname (url r)) = Some removed ∧
    same_request y0 r ∧ y = Express.trim_prefix removed y0.
Proof.
  intros Hs Hq Hin.
  destruct (handle_invoked R_request R_request_refl R_request_trans stack
              (request_respects stack Hs) Hq _ _ _ _ _ Hin)
    as (l & y0 & hy & removed & Hl & Hlab & HR & Hm & Hy).
  exists l, removed, y0.
  split; [exact Hl|]. split; [exact Hlab|].
  pose proof HR as (_ & Hu & _). cbn [fst] in Hu.
  split; [by rewrite <- Hu|]. split; [exact HR|exact Hy].
Qed.

Lemma serve_called_matches (r y : Request) (lab : Label) :
  Invoke lab y ∈ (App.serve W r).1 →
  ∃ l removed y0,
    l ∈ App.app W ∧ label l = lab ∧
    Express.layer_match l (Url.pathname (url r)) = Some removed ∧
    same_request y0 r ∧ y = Express.trim_prefix removed y0.
Proof.
  apply handle_called_matches; [apply app_steady|apply app_quiet].
Qed.

End Order.

Section Groups.

Context (W : World).


Lemma routes_in_app (l : Layer) : l ∈ App.routes W → l ∈ App.app W.
Proof.
  intros Hl. unfold App.app. rewrite elem_of_app, elem_of_cons, elem_of_app.
  right. right. by left.
Qed.

(** The mount paths of the routes exclude one another: two routes that
    match the same path are mounted at the same prefix. *)
Lemma routes_exclusive (l l' : Layer) (p a b : string) :
  l ∈ App.routes W → l' ∈ App.routes W →
  Express.layer_match l p = Some a → Express.layer_match l' p = Some b →
  mount l = mount l'.
Proof.
  unfold App.routes, App.docs. destruct (server_docs (config W)); cbn [app];
    rewrite !elem_of_cons, !elem_of_nil; intros Hl Hl';
    repeat (destruct Hl as [->|Hl]); try done;
    repeat (destruct Hl' as [->|Hl']); try done;
    intros Ha Hb;
    first [ reflexivity
          | exfalso; unfold Express.layer_match in Ha, Hb;
            cbn [mount App.useAuth App.useMailer App.usePaymentsGate
                 App.usePayments App.useGraphqlGate App.useGraphql App.useDocs]
              in Ha, Hb;
            match type of Ha with
            | Url.match_mount ?m _ = _ =>
                match type of Hb with
                | Url.match_mount ?m' _ = _ =>
                    pose proof (match_mount_excl m m' _ _ eq_refl Ha) as Hn
                end
            end;
            rewrite Hn in Hb; discriminate Hb ].
Qed.

(** A call of a handler of the application is a call by its layer. *)
Lemma serve_called_layer (r y : Request) (l : Layer) :
  l ∈ App.app W →
  Invoke (label l) y ∈ (App.serve W r).1 →
  ∃ removed, Express.layer_match l (Url.pathname (url r)) = Some removed.
Proof.
  intros Hl Hin.
  destruct (serve_called_matches W r y _ Hin) as (l0 & removed & _ & Hl0 & Hlab & Hm & _).
  rewrite (app_label_inj W l0 l Hl0 Hl Hlab) in Hm. by exists removed.
Qed.

(** The handlers called before the terminal handlers take over. *)
Lemma body_labels (err : option Js.value) (r y : Request)
    (h : gmap string string) (lab : Label) :
  Invoke lab y ∈
    (Express.handle (App.beforeCors W ++ App.useCors :: App.routes W) err r h).1 →
  lab ∉ [UnknownRoute; ErrorMiddleware].
Proof.
  intros Hin. apply handle_labels in Hin.
  - intros He. unfold App.routes, App.docs in Hin.
    rewrite !elem_of_cons, elem_of_nil in He.
    destruct (server_docs (config W)); cbn in Hin;
      destruct He as [->|[->|[]]];
      repeat (apply elem_of_cons in Hin as [Hin|Hin]; [discriminate Hin|]);
      by apply elem_of_nil in Hin.
  - pose proof (app_quiet W) as Hq.
    change (App.app W) with
      ((App.beforeCors W ++ App.useCors :: App.routes W) ++ App.terminals W) in Hq.
    rewrite Forall_app in Hq. tauto.
Qed.

End Groups.

(** Within one request the handlers are called in the order in which
    [app.js] registers their layers, and none is called twice: the labels
    of the calls, in order, are picked from the labels of the stack from
    front to back. *)
Theorem stages_in_registration_order (W : World) (r : Request) :
  called (App.serve W r).1 `sublist_of` (label <$> App.app W)
  ∧ NoDup (called (App.serve W r).1).
Proof.
  assert (H : called (App.serve W r).1 `sublist_of` (label <$> App.app W))
    by apply handle_called, app_quiet.
  split; [exact H|].
  eapply sublist_NoDup; [apply app_labels_NoDup|exact H].
Qed.


(** The route handlers called for one request all belong to one mount
    path: two layers of the routes (lines 54-69) mounted at different
    prefixes never both see the same request, also when a route module
    passes the request on. *)
Theorem one_route_group (W : World) (r y y' : Request) (l l' : Layer) :
  l ∈ App.routes W → l' ∈ App.routes W →
  Invoke (label l) y ∈ (App.serve W r).1 →
  Invoke (label l') y' ∈ (App.serve W r).1 →
  mount l = mount l'.
Proof.
  intros Hl Hl' Hin Hin'.
  destruct (serve_called_layer W r y l (routes_in_app W l Hl) Hin) as [a Ha].
  destruct (serve_called_layer W r y' l' (routes_in_app W l' Hl') Hin') as [b Hb].
  exact (routes_exclusive W l l' _ a b Hl Hl' Ha Hb).
Qed.

(** When one of the two terminal handlers is called, it is the last
    handler of the run and the other one is not called; it logs (a warning
    for an unknown route, an error otherwise) and the response is the one
    it builds from the formatted error. *)
Theorem terminal_handler_is_last (W : World) (r x : Request) (t : list Event)
    (resp : Response) (lab : Label) :
  App.serve W r = (t, Responded resp) →
  lab ∈ [UnknownRoute; ErrorMiddleware] →
  Invoke lab x ∈ t →
  ∃ t0 error h,
    t = t0 ++ [Invoke lab x;
               Logged (if decide (lab = UnknownRoute) then Warn else Error)
                 (App.logLine (formatError W error))] ∧
    resp = App.errorResponse (formatError W error) h ∧
    (lab = UnknownRoute → error = App.appError x) ∧
    (∀ l y, Invoke l y ∈ t0 → l ∉ [UnknownRoute; ErrorMiddleware]).
Proof.
  unfold App.serve.
  change (App.app W) with
    ((App.beforeCors W ++ App.useCors :: App.routes W) ++ App.terminals W).
  rewrite handle_app.
  pose proof (fun y lab => body_labels W None r y App.initialHeaders lab) as Hb.
  destruct (Express.handle (App.beforeCors W ++ App.useCors :: App.routes W) _ _ _)
    as [t1 [resp1|err r' h']] eqn:Hpre; cbn [fst] in Hb.
  - intros [= <- <-] Hlab Hin. by destruct (Hb _ _ Hin).
  - destruct err as [e|].
    + rewrite terminals_error. cbv zeta. unfold Express.prepend; cbn [fst snd].
      intros [= <- <-] Hlab Hin. in_trace Hin.
      destruct Hin as [Hin|[[= -> ->]|[Hin|[]]]];
        [by destruct (Hb _ _ Hin)| |discriminate].
      exists t1, e, h'. split; [done|]. split; [done|]. split; [discriminate|].
      intros l y Hy. by apply (Hb y l).
    + rewrite terminals_unknown. cbv zeta. unfold Express.prepend; cbn [fst snd].
      intros [= <- <-] Hlab Hin. in_trace Hin.
      destruct Hin as [Hin|[[= -> ->]|[Hin|[]]]];
        [by destruct (Hb _ _ Hin)| |discriminate].
      exists t1, (App.appError r'), h'. split; [done|]. split; [done|].
      split; [done|]. intros l y Hy. by apply (Hb y l).
Qed.

(** ** The layers before the routes, one after the other *)

Section Early.

Context (W : World).

Lemma body_plain : Forall plain (App.beforeCors W ++ App.useCors :: App.routes W).
Proof.
  apply Forall_app. split; [|apply Forall_cons; split; [by eexists|]].
  - unfold App.beforeCors, App.securityHeaders; cbn [app].
    repeat apply Forall_cons_2; try apply Forall_nil_2; by eexists.
  - apply routes_plain.
Qed.

(** Once an error is forwarded, the error handler is the next and last
    handler called, whatever layers are still ahead. *)
Lemma error_mode (n : nat) (e : Js.value) (r : Request) (h : gmap string string) :
  Express.handle
    (drop n (App.beforeCors W ++ App.useCors :: App.routes W) ++ App.terminals W)
    (Some e) r h =
  ([Invoke ErrorMiddleware r; Logged Error (App.logLine (formatError W e))],
   Responded (App.errorResponse (formatError W e) h)).
Proof.
  rewrite handle_past_error by apply Forall_drop, body_plain.
  apply terminals_error.
Qed.

Lemma serve_secured (r : Request) :
  App.serve W r =
    Express.prepend
      [Invoke Helmet r; Invoke ReferrerPolicy r; Invoke ContentSecurityPolicy r]
      (Express.handle
         (drop 3 (App.beforeCors W ++ App.useCors :: App.routes W)
            ++ App.terminals W)
         None r (secured W r App.initialHeaders)).
Proof. unfold App.serve. rewrite app_security. apply security_first. Qed.

Lemma static_step (r : Request) (h : gmap string string) :
  Express.handle
    (drop 3 (App.beforeCors W ++ App.useCors :: App.routes W) ++ App.terminals W)
    None r h =
  match Url.match_mount "/public" (Url.pathname (url r)) with
  | None =>
      Express.handle
        (drop 4 (App.beforeCors W ++ App.useCors :: App.routes W)
           ++ App.terminals W) None r h
  | Some removed =>
      let x := Express.trim_prefix removed r in
      match publicFile W x with
      | Reply code b => ([Invoke Static x], Responded (reply code b h))
      | Fail e =>
          Express.prepend [Invoke Static x]
            (Express.handle
               (drop 4 (App.beforeCors W ++ App.useCors :: App.routes W)
                  ++ App.terminals W) (Some e) r h)
      | Pass =>
          Express.prepend [Invoke Static x]
            (Express.handle
               (drop 4 (App.beforeCors W ++ App.useCors :: App.routes W)
                  ++ App.terminals W) None r h)
      end
  end.
Proof.
  change (drop 3 (App.beforeCors W ++ App.useCors :: App.routes W)
            ++ App.terminals W)
    with (mkLayer Static (Some "/public") (Plain (App.static W))
            :: (drop 4 (App.beforeCors W ++ App.useCors :: App.routes W)
                  ++ App.terminals W)).
  rewrite handle_mounted.
  destruct (Url.match_mount "/public" _) as [removed|] eqn:Hm; [|reflexivity].
  assert (Hl : Express.layer_match
                 (mkLayer Static (Some "/public") (Plain (App.static W)))
                 (Url.pathname (url r)) = Some removed) by exact Hm.
  cbv zeta. unfold App.static.
  destruct (publicFile W _) as [|e|code b]; cbn [delegate];
    rewrite ?(restore_trim _ _ _ Hl); reflexivity.
Qed.

Lemma health_step (r : Request) (h : gmap string string) :
  Express.handle
    (drop 4 (App.beforeCors W ++ App.useCors :: App.routes W) ++ App.terminals W)
    None r h =
  match Url.match_mount "/health-check" (Url.pathname (url r)) with
  | None => Express.handle (afterHealthCheck W) None r h
  | Some removed =>
      ([Invoke HealthCheck (Express.trim_prefix removed r)],
       Responded (Express.json_response (Js.Num 200)
                    (Js.Obj [("uptime", uptime W)]) h))
  end.
Proof.
  change (drop 4 (App.beforeCors W ++ App.useCors :: App.routes W)
            ++ App.terminals W)
    with (mkLayer HealthCheck (Some "/health-check") (Plain (App.healthCheck W))
            :: afterHealthCheck W).
  rewrite handle_mounted.
  by destruct (Url.match_mount "/health-check" _).
Qed.

End Early.


(** A request at or below [/public]: [express.static] is called right
    after the three security layers, with the URL relative to [/public].
    If it serves a file, that is the response and nothing else is called
    (no logger, no parser, no CORS header, no route).  If it fails, the
    error handler answers.  If it passes, the request goes on to the layers
    after the health check with its URL put back. *)
Theorem static_file_comes_first (W : World) (r : Request) (removed : string) :
  Url.match_mount "/public" (Url.pathname (url r)) = Some removed →
  let x := Express.trim_prefix removed r in
  let t := [Invoke Helmet r; Invoke ReferrerPolicy r;
            Invoke ContentSecurityPolicy r; Invoke Static x] in
  let h := secured W r App.initialHeaders in
  App.serve W r =
    match publicFile W x with
    | Reply code b => (t, Responded (reply code b h))
    | Fail e =>
        (t ++ [Invoke ErrorMiddleware r;
               Logged Error (App.logLine (formatError W e))],
         Responded (App.errorResponse (formatError W e) h))
    | Pass => Express.prepend t (Express.handle (afterHealthCheck W) None r h)
    end.
Proof.
  intros Hm x t h. rewrite serve_secured, static_step, Hm. cbv zeta. fold x.
  destruct (publicFile W x) as [|e|code b].
  - rewrite health_step.
    rewrite (match_mount_excl "/public" "/health-check" _ _ eq_refl Hm).
    by rewrite prepend_prepend.
  - by rewrite error_mode.
  - reflexivity.
Qed.

(** ** The body parsers *)

(** A label that does not occur in a list of labels that is written out. *)
Ltac absurd_label H :=
  repeat (apply elem_of_cons in H as [H|H]; [discriminate H|]);
  by apply elem_of_nil in H.

Section Parsers.

Context (W : World).

Lemma parsers_step (rest : list Layer) (r : Request) (h : gmap string string) :
  Express.handle (urlencodedLayer W :: jsonLayer W :: rest) None r h =
    match parseUrlencoded W r with
    | ParseError e =>
        Express.prepend [Invoke BodyUrlencoded r]
          (Express.handle rest (Some e) r h)
    | ParseOk v =>
        let r2 := set_body v r in
        match parseJson W r2 with
        | ParseError e =>
            Express.prepend [Invoke BodyUrlencoded r; Invoke BodyJson r2]
              (Express.handle rest (Some e) r2 h)
        | ParseOk v' =>
            Express.prepend [Invoke BodyUrlencoded r; Invoke BodyJson r2]
              (Express.handle rest None (set_body v' r2) h)
        end
    end.
Proof.
  unfold urlencodedLayer, jsonLayer.
  rewrite handle_unmounted. unfold App.bodyParser at 1.
  destruct (parseUrlencoded W r) as [v|e].
  - rewrite handle_unmounted. unfold App.bodyParser at 1. cbv zeta.
    destruct (parseJson W _) as [v'|e]; by rewrite prepend_prepend.
  - by rewrite handle_plain_error.
Qed.

Lemma app_parsers :
  App.app W =
    beforeParsers W ++
      urlencodedLayer W :: jsonLayer W :: App.useCors :: App.routes W ++ App.terminals W.
Proof. reflexivity. Qed.

Lemma beforeParsers_labels (err : option Js.value) (r y : Request)
    (h : gmap string string) (lab : Label) :
  Invoke lab y ∈ (Express.handle (beforeParsers W) err r h).1 →
  lab ∈ [Helmet; ReferrerPolicy; ContentSecurityPolicy; Static; HealthCheck;
         PassportInitialize; RequestLogger; CookieParser].
Proof.
  intros Hin. apply handle_labels in Hin; [exact Hin|].
  pose proof (app_quiet W) as Hq. rewrite app_parsers, Forall_app in Hq. tauto.
Qed.

Lemma afterParsers_labels (err : option Js.value) (r y : Request)
    (h : gmap string string) (lab : Label) :
  Invoke lab y ∈
    (Express.handle (App.useCors :: App.routes W ++ App.terminals W) err r h).1 →
  lab ∉ [Helmet; ReferrerPolicy; ContentSecurityPolicy; Static; HealthCheck;
         PassportInitialize; RequestLogger; CookieParser; BodyUrlencoded; BodyJson].
Proof.
  intros Hin. apply handle_labels in Hin.
  - intros He. unfold App.routes, App.docs in Hin.
    destruct (server_docs (config W)); cbn in Hin;
      repeat (apply elem_of_cons in Hin as [->|Hin]; [absurd_label He|]);
      by apply elem_of_nil in Hin.
  - pose proof (app_quiet W) as Hq. rewrite app_parsers, Forall_app in Hq.
    destruct Hq as [_ Hq]. by do 2 apply Forall_cons in Hq as [_ Hq].
Qed.

(** One request through the application, split at the body parsers. *)
Lemma serve_parsers (r : Request) :
  App.serve W r =
    match Express.handle (beforeParsers W) None r App.initialHeaders with
    | (t, Responded resp) => (t, Responded resp)
    | (t, Exhausted (Some e) r1 h1) =>
        Express.prepend t (Express.handle (App.terminals W) (Some e) r1 h1)
    | (t, Exhausted None r1 h1) =>
        match parseUrlencoded W r1 with
        | ParseError e =>
            Express.prepend (t ++ [Invoke BodyUrlencoded r1])
              (Express.handle (App.terminals W) (Some e) r1 h1)
        | ParseOk v =>
            let r2 := set_body v r1 in
            match parseJson W r2 with
            | ParseError e =>
                Express.prepend (t ++ [Invoke BodyUrlencoded r1; Invoke BodyJson r2])
                  (Express.handle (App.terminals W) (Some e) r2 h1)
            | ParseOk v' =>
                Express.prepend (t ++ [Invoke BodyUrlencoded r1; Invoke BodyJson r2])
                  (Express.handle (App.useCors :: App.routes W ++ App.terminals W)
                     None (set_body v' r2) h1)
            end
        end
    end.
Proof.
  assert (Herr : ∀ e x h,
    Express.handle (App.useCors :: App.routes W ++ App.terminals W) (Some e) x h
    = Express.handle (App.terminals W) (Some e) x h).
  { intros e x h. unfold App.useCors. by rewrite handle_plain_error, routes_error. }
  unfold App.serve. rewrite app_parsers, handle_app.
  destruct (Express.handle (beforeParsers W) _ _ _) as [t [resp|[e|] r1 h1]];
    [reflexivity| |].
  - unfold urlencodedLayer, jsonLayer. by rewrite !handle_plain_error, Herr.
  - rewrite parsers_step.
    destruct (parseUrlencoded W r1) as [v|e]; cbv zeta;
      [destruct (parseJson W _) as [v'|e]|];
      by rewrite prepend_prepend, ?Herr.
Qed.

Lemma parser_cases (lab : Label) (parse : Request → Parsed) :
  (lab, parse) ∈ parsers W →
  (lab = BodyUrlencoded ∧ parse = parseUrlencoded W)
  ∨ (lab = BodyJson ∧ parse = parseJson W).
Proof.
  unfold parsers. rewrite !elem_of_cons, elem_of_nil.
  intros [[= -> ->]|[[= -> ->]|[]]]; [by left|by right].
Qed.

Lemma first_labels_early (l : Label) :
  l ∈ [Helmet; ReferrerPolicy; ContentSecurityPolicy; Static; HealthCheck;
       PassportInitialize; RequestLogger; CookieParser] →
  l ∈ early ∧ l ≠ Cors.
Proof.
  intros H. unfold early.
  repeat (apply elem_of_cons in H as [->|H];
          [split; [rewrite !elem_of_cons; tauto|discriminate]|]).
  by apply elem_of_nil in H.
Qed.

End Parsers.

(** When a body parser is called and cannot decode the payload, the error
    handler is the next and last handler called, on the same request
    object, and the response is built from the formatted parse error.
    Every handler called before is one of lines 24-37: the CORS layer, the
    token gates, the routes and the unknown-route handler do not see the
    request. *)
Theorem parse_error_reaches_error_handler (W : World) (r x : Request)
    (t : list Event) (resp : Response) (lab : Label) (parse : Request → Parsed)
    (e : Js.value) :
  App.serve W r = (t, Responded resp) →
  (lab, parse) ∈ parsers W →
  Invoke lab x ∈ t →
  parse x = ParseError e →
  ∃ t0 h,
    t = t0 ++ [Invoke lab x; Invoke ErrorMiddleware x;
               Logged Error (App.logLine (formatError W e))] ∧
    resp = App.errorResponse (formatError W e) h ∧
    ∀ l y, Invoke l y ∈ t0 → l ∈ early ∧ l ≠ Cors.
Proof.
  intros Hrun Hp Hin Herr. rewrite serve_parsers in Hrun.
  pose proof (fun lab y => beforeParsers_labels W None r y App.initialHeaders lab)
    as Hb.
  assert (Hno : ∀ l y, (l, parse) ∈ parsers W → Invoke l y ∈
                  (Express.handle (beforeParsers W) None r App.initialHeaders).1 →
                False).
  { intros l y Hl Hy. apply Hb in Hy.
    destruct (parser_cases W _ _ Hl) as [[-> _]|[-> _]]; absurd_label Hy. }
  destruct (Express.handle (beforeParsers W) None r App.initialHeaders)
    as [t1 [resp1|[e0|] r1 h1]] eqn:Hpre; cbn [fst] in Hb, Hno.
  - injection Hrun as <- <-. destruct (Hno _ _ Hp Hin).
  - rewrite terminals_error in Hrun. cbv zeta in Hrun.
    unfold Express.prepend in Hrun; cbn [fst snd] in Hrun.
    injection Hrun as <- <-. in_trace Hin.
    destruct Hin as [Hin|[Hin|[Hin|[]]]];
      [destruct (Hno _ _ Hp Hin)| |discriminate].
    injection Hin as -> _.
    destruct (parser_cases W _ _ Hp) as [[? _]|[? _]]; discriminate.
  - destruct (parseUrlencoded W r1) as [v|e1] eqn:Hu; cbv zeta in Hrun.
    + destruct (parseJson W (set_body v r1)) as [v'|e2] eqn:Hj.
      * exfalso.
        pose proof (fun lab y => afterParsers_labels W None (set_body v' (set_body v r1))
                                   y h1 lab) as Ha.
        destruct (Express.handle (App.useCors :: _) None _ h1) as [t2 o];
          cbn [fst] in Ha.
        unfold Express.prepend in Hrun; cbn [fst snd] in Hrun.
        injection Hrun as <- _. in_trace Hin.
        destruct Hin as [[Hin|[Hin|[Hin|[]]]]|Hin].
        -- destruct (Hno _ _ Hp Hin).
        -- injection Hin as -> ->.
           destruct (parser_cases W _ _ Hp) as [[_ ->]|[? _]]; [|discriminate].
           rewrite Hu in Herr. discriminate.
        -- injection Hin as -> ->.
           destruct (parser_cases W _ _ Hp) as [[? _]|[_ ->]]; [discriminate|].
           rewrite Hj in Herr. discriminate.
        -- apply Ha in Hin. apply Hin.
           destruct (parser_cases W _ _ Hp) as [[-> _]|[-> _]];
             rewrite !elem_of_cons; tauto.
      * rewrite terminals_error in Hrun. cbv zeta in Hrun.
        unfold Express.prepend in Hrun; cbn [fst snd] in Hrun.
        injection Hrun as <- <-. in_trace Hin.
        destruct Hin as [[Hin|[Hin|[Hin|[]]]]|[Hin|[Hin|[]]]];
          [destruct (Hno _ _ Hp Hin)| | |injection Hin as -> _|discriminate].
        -- injection Hin as -> ->.
           destruct (parser_cases W _ _ Hp) as [[_ ->]|[? _]]; [|discriminate].
           rewrite Hu in Herr. discriminate.
        -- injection Hin as -> ->.
           destruct (parser_cases W _ _ Hp) as [[? _]|[_ ->]]; [discriminate|].
           rewrite Hj in Herr. injection Herr as <-.
           exists (t1 ++ [Invoke BodyUrlencoded r1]), h1.
           split; [by rewrite <- !app_assoc|]. split; [done|].
           intros l y Hy. rewrite elem_of_app, elem_of_cons, elem_of_nil in Hy.
           destruct Hy as [Hy|[[= -> _]|[]]].
           ++ by apply first_labels_early, (Hb l y).
           ++ unfold early. split; [rewrite !elem_of_cons; tauto|discriminate].
        -- destruct (parser_cases W _ _ Hp) as [[? _]|[? _]]; discriminate.
    + rewrite terminals_error in Hrun. cbv zeta in Hrun.
      unfold Express.prepend in Hrun; cbn [fst snd] in Hrun.
      injection Hrun as <- <-. in_trace Hin.
      destruct Hin as [[Hin|[Hin|[]]]|[Hin|[Hin|[]]]];
        [destruct (Hno _ _ Hp Hin)| |injection Hin as -> _|discriminate].
      * injection Hin as -> ->.
        destruct (parser_cases W _ _ Hp) as [[_ ->]|[? _]]; [|discriminate].
        rewrite Hu in Herr. injection Herr as <-.
        exists t1, h1. split; [by rewrite <- !app_assoc|]. split; [done|].
        intros l y Hy. by apply first_labels_early, (Hb l y).
      * destruct (parser_cases W _ _ Hp) as [[? _]|[? _]]; discriminate.
Qed.

(** ** What the routes are given *)

Section Attached.

Context (W : World).

Lemma untouched_respects (l : Layer) : untouched l → respects R_attached l.
Proof.
  intros Hl err r h removed evs s Hm Hc. specialize (Hl _ _ _ _ _ Hc).
  unfold R_attached, Express.restore, Express.trim_prefix in *; simpl.
  destruct s; try done; by destruct removed.
Qed.

Lemma R_attached_refl (x : State) : R_attached x x.
Proof. by split. Qed.

Lemma R_attached_trans (x y z : State) :
  R_attached x y → R_attached y z → R_attached x z.
Proof. unfold R_attached. intros [??] [??]. split; congruence. Qed.

(** A handler called by a run of layers that leave body and cookies alone
    sees the body and the cookies the run started with. *)
Lemma handle_called_attached (stack : list Layer) (err : option Js.value)
    (r y : Request) (h : gmap string string) (lab : Label) :
  Forall untouched stack → Forall quiet stack →
  Invoke lab y ∈ (Express.handle stack err r h).1 →
  body y = body r ∧ cookies y = cookies r.
Proof.
  intros Hu Hq Hin.
  destruct (handle_invoked R_attached R_attached_refl R_attached_trans stack
              ltac:(eapply Forall_impl; [exact Hu|apply untouched_respects]) Hq
              _ _ _ _ _ Hin)
    as (l & y0 & hy & removed & _ & _ & [Hb Hc] & _ & ->).
  cbn [fst] in Hb, Hc. rewrite <- Hb, <- Hc.
  unfold Express.trim_prefix. by destruct removed.
Qed.

Lemma routes_untouched : Forall untouched (App.routes W ++ App.terminals W).
Proof. each_layer; handler; done. Qed.

Lemma beforeParsers_cookies (r r1 : Request) (h h1 : gmap string string)
    (t : list Event) :
  Express.handle (beforeParsers W) None r h = (t, Exhausted None r1 h1) →
  is_Some (cookies r1).
Proof.
  change (beforeParsers W) with
    (take 7 (App.beforeCors W)
       ++ [mkLayer CookieParser None (Plain (App.cookieParser W))]).
  rewrite handle_app.
  destruct (Express.handle (take 7 (App.beforeCors W)) _ _ _)
    as [t0 [resp|[e|] r0 h0]]; [discriminate| |].
  - rewrite handle_plain_error. discriminate.
  - rewrite handle_unmounted. unfold App.cookieParser.
    unfold Express.prepend; cbn [Express.handle fst snd].
    intros [= _ <- _]. by eexists.
Qed.

(** A request that reaches the routes has its cookies and its body
    decoded. *)
Lemma arrives_attached (r r' : Request) (t : list Event) (h' : gmap string string) :
  arrives W r t r' h' → is_Some (body r') ∧ is_Some (cookies r').
Proof.
  unfold arrives.
  change (App.beforeCors W ++ [App.useCors]) with
    (beforeParsers W ++ urlencodedLayer W :: jsonLayer W :: [App.useCors]).
  rewrite handle_app.
  destruct (Express.handle (beforeParsers W) _ _ _)
    as [t0 [resp|[e|] r0 h0]] eqn:Hpre; [discriminate| |].
  - unfold urlencodedLayer, jsonLayer, App.useCors.
    rewrite !handle_plain_error. discriminate.
  - apply beforeParsers_cookies in Hpre. rewrite parsers_step.
    destruct (parseUrlencoded W r0) as [v|e]; cbv zeta.
    + destruct (parseJson W _) as [v'|e].
      * rewrite cors_step. cbn [method set_body].
        destruct (method r0); unfold Express.prepend; cbn [Express.handle fst snd];
          try discriminate; intros [= _ <- _]; (split; [by eexists|exact Hpre]).
      * unfold App.useCors. rewrite handle_plain_error. discriminate.
    + unfold App.useCors. rewrite handle_plain_error. discriminate.
Qed.

End Attached.

(** Every token gate, route handler and the unknown-route handler is
    called with [req.body] and [req.cookies] defined: the layers of lines
    35-37 have run and decoded them, whatever the payload was. *)
Theorem routes_see_parsed_body (W : World) (r x : Request) (lab : Label) :
  Invoke lab x ∈ (App.serve W r).1 →
  lab ∉ early → lab ≠ ErrorMiddleware →
  is_Some (body x) ∧ is_Some (cookies x).
Proof.
  intros Hin Hearly Herr.
  destruct (serve_invoked W r x lab Hin) as [H|[H|(t0 & r' & h' & Harr & Hin')]];
    [done..|].
  destruct (handle_called_attached _ _ _ _ _ _ (routes_untouched W)
              ltac:(pose proof (app_quiet W) as Hq; rewrite app_shape, Forall_app in Hq;
                    destruct Hq as [_ Hq]; by apply Forall_cons in Hq as [_ Hq])
              Hin') as [-> ->].
  exact (arrives_attached W _ _ _ _ Harr).
Qed.

(** ** Responses sent before the CORS layer *)

Section BeforeCors.

Context (W : World).

Lemma lacks_respects (k : string) (l : Layer) :
  lacks k l → respects (R_lacks k) l.
Proof.
  intros Hl err r h removed evs s Hm Hc. unfold R_lacks; simpl.
  destruct s; [intros Hk; exact (Hl _ _ _ _ _ Hk Hc)..|done].
Qed.

(** A header that no layer of a stack introduces is not on the response,
    nor among the headers the stack leaves behind. *)
Lemma handle_lacks (stack : list Layer) (k : string) (err : option Js.value)
    (r : Request) (h : gmap string string) (t : list Event) (o : Outcome) :
  Forall (lacks k) stack →
  h !! k = None →
  Express.handle stack err r h = (t, o) →
  match o with
  | Responded resp => sent resp !! k = None
  | Exhausted _ _ h' => h' !! k = None
  end.
Proof.
  intros Hall Hk Hrun.
  assert (Hresp : Forall (respects (R_lacks k)) stack)
    by (eapply Forall_impl; [exact Hall|apply lacks_respects]).
  destruct o as [resp|err' r' h'].
  - destruct (handle_responded (R_lacks k) (fun _ H => H)
                (fun _ _ _ H1 H2 H => H2 (H1 H)) stack Hresp _ _ _ _ _ Hrun)
      as (l & e' & y & hy & removed & evs & Hl & HR & _ & Hc).
    rewrite Forall_forall in Hall.
    exact (Hall l Hl _ _ _ _ _ (HR Hk) Hc).
  - exact (handle_exhausted (R_lacks k) (fun _ H => H)
             (fun _ _ _ H1 H2 H => H2 (H1 H)) stack Hresp _ _ _ _ _ _ _ Hrun Hk).
Qed.

Lemma beforeCors_lacks :
  (∀ x h, h !! "Access-Control-Allow-Origin" = None →
          helmetDefaults W x h !! "Access-Control-Allow-Origin" = None) →
  Forall (lacks "Access-Control-Allow-Origin") (App.beforeCors W).
Proof.
  intros Hhelmet.
  unfold App.beforeCors, App.securityHeaders; cbn [app];
    repeat apply Forall_cons_2; try apply Forall_nil_2;
    handler; repeat case_match; cbn [sent];
    rewrite ?lookup_insert_ne by done; auto.
Qed.

End BeforeCors.

(** A response sent without the CORS layer having been called (a file
    below [/public], the health check, a reply or failure of the request
    logger, a parse error) carries no [Access-Control-Allow-Origin]
    header, whatever the origin of the request: the layer is registered
    after those of lines 24-37 and is passed over once an error is
    forwarded.  [helmet()] is taken not to set that header. *)
Theorem no_cors_header_before_cors (W : World) (r : Request) (t : list Event)
    (resp : Response) :
  (∀ x h, h !! "Access-Control-Allow-Origin" = None →
          helmetDefaults W x h !! "Access-Control-Allow-Origin" = None) →
  App.serve W r = (t, Responded resp) →
  (∀ x, Invoke Cors x ∉ t) →
  sent resp !! "Access-Control-Allow-Origin" = None.
Proof.
  intros Hhelmet Hrun Hno. rewrite serve_split in Hrun.
  pose proof (handle_lacks (App.beforeCors W) "Access-Control-Allow-Origin"
                None r App.initialHeaders) as Hl.
  destruct (Express.handle (App.beforeCors W) None r App.initialHeaders)
    as [t1 [resp1|[e|] r1 h1]].
  - injection Hrun as <- <-.
    exact (Hl _ _ (beforeCors_lacks W Hhelmet) eq_refl eq_refl).
  - rewrite terminals_error in Hrun. cbv zeta in Hrun.
    unfold Express.prepend in Hrun; cbn [fst snd] in Hrun.
    injection Hrun as <- <-.
    pose proof (Hl _ _ (beforeCors_lacks W Hhelmet) eq_refl eq_refl) as Hh.
    cbn beta iota in Hh.
    unfold App.errorResponse, Express.json_response; cbn [sent].
    destruct (h1 !! "Content-Type"); [exact Hh|].
    by rewrite lookup_insert_ne.
  - exfalso. apply (Hno r1).
    destruct (method r1);
      try (injection Hrun as <- _; apply elem_of_app; right; apply list_elem_of_here);
      destruct (Express.handle (App.routes W ++ App.terminals W) None r1 _)
        as [t2 o2];
      unfold Express.prepend in Hrun; cbn [fst snd] in Hrun;
      injection Hrun as <- _;
      apply elem_of_app; left; apply elem_of_app; right; apply list_elem_of_here.
Qed.

(** ** After a route module *)

Section Outcome.

Context (W : World).



End Outcome.


(** ** Mount paths, once more *)

Section MountPaths.

Lemma same_letter_refl (c : ascii) : Url.same_letter c c = true.
Proof. unfold Url.same_letter. apply Ascii.eqb_refl. Qed.

Lemma same_letter_sym (a b : ascii) :
  Url.same_letter a b = true → Url.same_letter b a = true.
Proof. unfold Url.same_letter. rewrite !Ascii.eqb_eq. congruence. Qed.

Lemma same_letter_trans (a b c : ascii) :
  Url.same_letter a b = true → Url.same_letter b c = true →
  Url.same_letter a c = true.
Proof. unfold Url.same_letter. rewrite !Ascii.eqb_eq. congruence. Qed.

Lemma lower_slash (c : ascii) : Url.lower c = "/"%char → c = "/"%char.
Proof.
  destruct c as [[] [] [] [] [] [] [] []]; vm_compute; intros H;
    first [reflexivity | discriminate H].
Qed.

(** The slash is no letter: it only matches itself. *)
Lemma same_letter_slash (a b : ascii) :
  Url.same_letter a b = true → Ascii.eqb a "/" = Ascii.eqb b "/".
Proof.
  unfold Url.same_letter. rewrite Ascii.eqb_eq. intros H.
  destruct (Ascii.eqb a "/") eqn:Ha, (Ascii.eqb b "/") eqn:Hb; try reflexivity.
  - apply Ascii.eqb_eq in Ha. subst a. symmetry in H. apply lower_slash in H.
    subst b. discriminate Hb.
  - apply Ascii.eqb_eq in Hb. subst b. apply lower_slash in H.
    subst a. discriminate Ha.
Qed.

Lemma ci_equal_sym (a b : string) : ci_equal a b = true → ci_equal b a = true.
Proof.
  revert b. induction a as [|x a IH]; intros [|y b]; simpl; try done.
  intros [H1 H2]%andb_prop. by rewrite (same_letter_sym _ _ H1), (IH _ H2).
Qed.

Lemma ci_equal_length (a b : string) :
  ci_equal a b = true → String.length a = String.length b.
Proof.
  revert b. induction a as [|x a IH]; intros [|y b]; simpl; try done.
  intros [_ H]%andb_prop. by rewrite (IH _ H).
Qed.

Lemma strip_ci_app (m t : string) : Url.strip_ci m (m +:+ t) = Some t.
Proof.
  induction m as [|a m IH]; [reflexivity|].
  rewrite append_cons. simpl. by rewrite same_letter_refl.
Qed.

Lemma strip_ci_self (m : string) : Url.strip_ci m m = Some EmptyString.
Proof.
  induction m as [|a m IH]; [reflexivity|]. simpl. by rewrite same_letter_refl.
Qed.

Lemma keep_all (s : string) : Url.keep (String.length s) s = s.
Proof. induction s as [|c s IH]; [reflexivity|]. simpl. by rewrite IH. Qed.

Lemma strip_ci_equal (m p p' rest : string) :
  ci_equal p p' = true → Url.strip_ci m p = Some rest →
  ∃ rest', Url.strip_ci m p' = Some rest' ∧ ci_equal rest rest' = true.
Proof.
  revert p p'. induction m as [|a m IH]; intros p p' He; simpl.
  - intros [= <-]. by exists p'.
  - destruct p as [|b p]; [discriminate|]. destruct p' as [|b' p']; [discriminate|].
    simpl in He. apply andb_prop in He as [Hb He].
    destruct (Url.same_letter a b) eqn:Hab; [|discriminate].
    rewrite (same_letter_trans _ _ _ Hab Hb). by apply IH.
Qed.

Lemma boundary_equal (rest rest' : string) :
  ci_equal rest rest' = true → Url.boundary rest = Url.boundary rest'.
Proof.
  destruct rest as [|c rest], rest' as [|c' rest']; simpl; try done.
  intros [Hc He]%andb_prop. rewrite (same_letter_slash _ _ Hc).
  destruct (Ascii.eqb c' "/"); [|reflexivity].
  destruct rest as [|d rest], rest' as [|d' rest']; simpl in He; try done.
  apply andb_prop in He as [Hd _]. by rewrite (same_letter_slash _ _ Hd).
Qed.

Lemma keep_length (n : nat) (s : string) :
  (n ≤ String.length s)%nat → String.length (Url.keep n s) = n.
Proof.
  revert s. induction n as [|n IH]; intros s Hn; [reflexivity|].
  destruct s as [|c s]; simpl in *; [lia|]. rewrite IH; lia.
Qed.

Lemma strip_ci_length (a s x : string) :
  Url.strip_ci a s = Some x →
  String.length s = (String.length a + String.length x)%nat.
Proof.
  revert s. induction a as [|c a IH]; intros s; simpl; [by intros [= <-]|].
  destruct s as [|d s]; [discriminate|].
  destruct (Url.same_letter c d); [|discriminate].
  intros H. simpl. by rewrite (IH _ H).
Qed.

Lemma boundary_le (s : string) (k : nat) :
  Url.boundary s = Some k → (k ≤ String.length s)%nat.
Proof.
  destruct s as [|c s]; simpl; [intros [= <-]; lia|].
  destruct (Ascii.eqb c "/"); [|discriminate].
  destruct s as [|d s]; [intros [= <-]; simpl; lia|].
  destruct (Ascii.eqb d "/"); intros [= <-]; simpl; lia.
Qed.

(** Paths that differ only in case match the same mount paths. *)
Lemma match_mount_equal (m p p' removed : string) :
  ci_equal p p' = true → Url.match_mount m p = Some removed →
  Url.match_mount m p' = Some (Url.keep (String.length removed) p').
Proof.
  unfold Url.match_mount. intros He.
  destruct (Url.strip_ci m p) as [rest|] eqn:Hs; [|discriminate].
  destruct (strip_ci_equal _ _ _ _ He Hs) as (rest' & -> & Hr).
  rewrite <- (boundary_equal _ _ Hr).
  destruct (Url.boundary rest) as [k|] eqn:Hb; [|discriminate].
  intros [= <-]. rewrite keep_length; [done|].
  rewrite (strip_ci_length _ _ _ Hs). apply boundary_le in Hb. lia.
Qed.

End MountPaths.

(** What a mounted handler is given and what comes back.  For a layer
    whose mount path matches: the handler sees [req.originalUrl] untouched
    and a [req.url] that starts with a slash and is the incoming URL
    without the matched prefix (query string included); and when the
    handler calls [next()] without touching the URL, the next layer sees
    the request exactly as it came in. *)
Theorem mount_trim_restore (l : Layer) (r : Request) (removed : string) :
  Express.layer_match l (Url.pathname (url r)) = Some removed →
  let x := Express.trim_prefix removed r in
  Express.restore removed r x = r ∧
  originalUrl x = originalUrl r ∧
  (removed ≠ EmptyString →
   Url.starts_with_slash (url x) = true ∧
   ∃ q, url r = removed +:+ q ∧ (url x = q ∨ url x = "/" +:+ q)).
Proof.
  intros Hm x. split; [exact (restore_trim l r removed Hm)|].
  split; [subst x; unfold Express.trim_prefix; by destruct removed|].
  intros Hne. unfold Express.layer_match in Hm.
  destruct (mount l) as [m|]; [|by injection Hm as <-].
  apply removed_prefix in Hm.
  subst x. unfold Express.trim_prefix.
  destruct removed as [|c removed]; [done|].
  set (rest := Url.skip _ (url r)) in *. cbn [url set_url].
  destruct (Url.starts_with_slash rest) eqn:Hs.
  - split; [exact Hs|]. exists rest. split; [by rewrite Hm|by left].
  - split; [reflexivity|]. exists rest. split; [by rewrite Hm|by right].
Qed.

(** A mount path matches whole path segments only: the mount path itself
    and every path that continues it with a slash match; a path that
    continues it with any other character does not. *)
Theorem mount_matches_segments (m : string) :
  Url.match_mount m m = Some m
  ∧ (∀ s, is_Some (Url.match_mount m (m +:+ String "/" s)))
  ∧ (∀ c s, c ≠ "/"%char → Url.match_mount m (m +:+ String c s) = None).
Proof.
  split; [|split].
  - unfold Url.match_mount. rewrite strip_ci_self. cbn [Url.boundary].
    by rewrite Nat.add_0_r, keep_all.
  - intros s. unfold Url.match_mount. rewrite strip_ci_app.
    unfold Url.boundary. rewrite Ascii.eqb_refl.
    destruct s as [|d s]; [by eexists|]. destruct (Ascii.eqb d "/"); by eexists.
  - intros c s Hc. unfold Url.match_mount. rewrite strip_ci_app.
    unfold Url.boundary. apply Ascii.eqb_neq in Hc. by rewrite Hc.
Qed.

(** Mount paths are matched without regard to the case of letters: two
    paths that differ only in case match the same mount paths, and the
    matched prefixes have the same length. *)
Theorem mount_ignores_case (m p p' : string) :
  ci_equal p p' = true →
  (is_Some (Url.match_mount m p) ↔ is_Some (Url.match_mount m p'))
  ∧ ∀ removed,
      Url.match_mount m p = Some removed →
      Url.match_mount m p' = Some (Url.keep (String.length removed) p').
Proof.
  intros He. split; [|intros removed; by apply match_mount_equal].
  split; intros [removed H].
  - rewrite (match_mount_equal _ _ _ _ He H). by eexists.
  - rewrite (match_mount_equal _ _ _ _ (ci_equal_sym _ _ He) H). by eexists.
Qed.

(** ** The further properties on concrete requests *)

Lemma invoke_called (lab : Label) (x : Request) (t : list Event) :
  Invoke lab x ∈ t → lab ∈ called t.
Proof.
  intros Hin. unfold called. apply list_elem_of_omap. by exists (Invoke lab x).
Qed.


(** [POST /api/payments/charge] with a valid token: the gate and the
    payment routes are both called; they are mounted at the same path. *)
Lemma one_route_group_witness :
  let W := Sample.world false in
  let r := incoming POST "/api/payments/charge" (Sample.bearer "good") EmptyString in
  let r' := set_body (Js.Obj []) (set_body (Js.Obj []) (set_cookies (Js.Obj []) r)) in
  let y := Express.trim_prefix "/api/payments" r' in
  Invoke PaymentsVerifyJwt y ∈ (App.serve W r).1 ∧
  Invoke PaymentRoutes (set_user Sample.identity y) ∈ (App.serve W r).1 ∧
  mount (App.usePaymentsGate W) = mount (App.usePayments W).
Proof.
  intros W r r' y.
  assert (Hg : (App.serve W r).1 !! 9%nat = Some (Invoke PaymentsVerifyJwt y))
    by (vm_compute; reflexivity).
  assert (Hp : (App.serve W r).1 !! 10%nat
               = Some (Invoke PaymentRoutes (set_user Sample.identity y)))
    by (vm_compute; reflexivity).
  apply list_elem_of_lookup_2 in Hg. apply list_elem_of_lookup_2 in Hp.
  split; [exact Hg|]. split; [exact Hp|].
  refine (one_route_group W r _ _ (App.usePaymentsGate W) (App.usePayments W)
            _ _ Hg Hp).
  - apply (list_elem_of_lookup_2 _ 2%nat). reflexivity.
  - apply (list_elem_of_lookup_2 _ 3%nat). reflexivity.
Defined.

(** [GET /nope]: the unknown-route handler is the last handler called. *)
Lemma terminal_handler_is_last_witness :
  let W := Sample.world false in
  let r := incoming GET "/nope" ∅ EmptyString in
  let run := App.serve W r in
  let x := set_body (Js.Obj []) (set_body (Js.Obj []) (set_cookies (Js.Obj []) r)) in
  Invoke UnknownRoute x ∈ run.1 ∧
  ∃ t0 error h,
    run.1 = t0 ++ [Invoke UnknownRoute x;
                   Logged Warn (App.logLine (formatError W error))] ∧
    answer run.2 = App.errorResponse (formatError W error) h ∧
    error = App.appError x.
Proof.
  intros W r run x.
  assert (Hrun : run = (run.1, Responded (answer run.2)))
    by (vm_compute; reflexivity).
  assert (Hin : run.1 !! 9%nat = Some (Invoke UnknownRoute x))
    by (vm_compute; reflexivity).
  apply list_elem_of_lookup_2 in Hin.
  split; [exact Hin|].
  destruct (terminal_handler_is_last W r x _ _ UnknownRoute Hrun
              (list_elem_of_here _ _) Hin)
    as (t0 & error & h & Ht & Hresp & Herr & _).
  exists t0, error, h. split; [exact Ht|]. split; [exact Hresp|]. by apply Herr.
Defined.


(** [GET /public/app.css]: the file is the response. *)
Lemma static_file_comes_first_witness :
  let W := Sample.world false in
  let r := incoming GET "/public/app.css" ∅ EmptyString in
  ∃ t resp,
    App.serve W r = (t, Responded resp) ∧
    called t = [Helmet; ReferrerPolicy; ContentSecurityPolicy; Static] ∧
    status resp = Js.Num 200 ∧ content resp = RawBody "body{}".
Proof.
  intros W r.
  assert (Hm : Url.match_mount "/public" (Url.pathname (url r)) = Some "/public")
    by (vm_compute; reflexivity).
  pose proof (static_file_comes_first W r "/public" Hm) as Hrun.
  cbv zeta in Hrun.
  change (publicFile W (Express.trim_prefix "/public" r))
    with (Reply 200 (RawBody "body{}")) in Hrun.
  cbv beta iota in Hrun.
  eexists _, _. split; [exact Hrun|]. split; [reflexivity|]. split; reflexivity.
Defined.

(** [POST /api/auth/login] with the payload [{]: the JSON parser fails and
    the error handler answers; the auth routes are not called. *)
Lemma parse_error_reaches_error_handler_witness :
  let W := Sample.world false in
  let r := incoming POST "/api/auth/login" ∅ "{" in
  let run := App.serve W r in
  let x := set_body (Js.Obj []) (set_cookies (Js.Obj []) r) in
  parseJson W x = ParseError Sample.parseError ∧
  ∃ t0 h,
    run.1 = t0 ++ [Invoke BodyJson x; Invoke ErrorMiddleware x;
                   Logged Error (App.logLine (formatError W Sample.parseError))] ∧
    answer run.2 = App.errorResponse (formatError W Sample.parseError) h ∧
    ∀ l y, Invoke l y ∈ t0 → l ∈ early ∧ l ≠ Cors.
Proof.
  intros W r run x.
  assert (Hrun : run = (run.1, Responded (answer run.2)))
    by (vm_compute; reflexivity).
  assert (Hin : run.1 !! 7%nat = Some (Invoke BodyJson x))
    by (vm_compute; reflexivity).
  apply list_elem_of_lookup_2 in Hin.
  assert (Hp : parseJson W x = ParseError Sample.parseError)
    by (vm_compute; reflexivity).
  split; [exact Hp|].
  exact (parse_error_reaches_error_handler W r x _ _ BodyJson (parseJson W)
           Sample.parseError Hrun
           (list_elem_of_further _ _ _ (list_elem_of_here _ _)) Hin Hp).
Defined.

(** [GET /api/mailer/send] without payload and cookies: the mailer routes
    see an empty body and empty cookies, not undefined ones. *)
Lemma routes_see_parsed_body_witness :
  let W := Sample.world false in
  let r := incoming GET "/api/mailer/send" ∅ EmptyString in
  let x := Express.trim_prefix "/api/mailer"
             (set_body (Js.Obj []) (set_body (Js.Obj []) (set_cookies (Js.Obj []) r))) in
  body r = None ∧ cookies r = None ∧
  Invoke MailerRoutes x ∈ (App.serve W r).1 ∧
  is_Some (body x) ∧ is_Some (cookies x).
Proof.
  intros W r x.
  assert (Hin : (App.serve W r).1 !! 9%nat = Some (Invoke MailerRoutes x))
    by (vm_compute; reflexivity).
  apply list_elem_of_lookup_2 in Hin.
  split; [reflexivity|]. split; [reflexivity|]. split; [exact Hin|].
  apply (routes_see_parsed_body W r x MailerRoutes Hin).
  - intros H. not_listed H.
  - discriminate.
Defined.

(** [POST /api/auth/login] from the configured origin with a payload that
    does not parse: the error response carries no
    [Access-Control-Allow-Origin]. *)
Lemma no_cors_header_before_cors_witness :
  let W := Sample.world false in
  let r := incoming POST "/api/auth/login" (Sample.from App.origin) "{" in
  let run := App.serve W r in
  run.2 = Responded (answer run.2) ∧
  last (called run.1) = Some ErrorMiddleware ∧
  sent (answer run.2) !! "Access-Control-Allow-Origin" = None.
Proof.
  intros W r run.
  assert (Hrun : run = (run.1, Responded (answer run.2)))
    by (vm_compute; reflexivity).
  split; [vm_compute; reflexivity|]. split; [vm_compute; reflexivity|].
  apply (no_cors_header_before_cors W r run.1 (answer run.2)).
  - intros x h Hh. cbn [helmetDefaults W Sample.world].
    by rewrite !lookup_insert_ne, lookup_delete_ne.
  - exact Hrun.
  - intros x Hin. apply invoke_called in Hin. revert Hin.
    apply (bool_decide_unpack _). vm_compute. exact I.
Defined.


(** [GET /api/auth?x=1]: the auth routes see [/?x=1], and the URL is put
    back afterwards. *)
Lemma mount_trim_restore_witness :
  let l := App.useAuth (Sample.world false) in
  let r := incoming GET "/api/auth?x=1" ∅ EmptyString in
  let x := Express.trim_prefix "/api/auth" r in
  url x = "/?x=1" ∧
  Express.restore "/api/auth" r x = r ∧
  originalUrl x = "/api/auth?x=1" ∧
  Url.starts_with_slash (url x) = true.
Proof.
  intros l r x.
  destruct (mount_trim_restore l r "/api/auth" ltac:(vm_compute; reflexivity))
    as (Hr & Ho & Hs).
  split; [reflexivity|]. split; [exact Hr|]. split; [exact Ho|].
  exact (proj1 (Hs ltac:(discriminate))).
Defined.

(** [/API/Payments/charge] is below [/api/payments] as
    [/api/payments/charge] is. *)
Lemma mount_ignores_case_witness :
  ci_equal "/api/payments/charge" "/API/Payments/charge" = true ∧
  Url.match_mount "/api/payments" "/API/Payments/charge" = Some "/API/Payments".
Proof.
  assert (He : ci_equal "/api/payments/charge" "/API/Payments/charge" = true)
    by (vm_compute; reflexivity).
  split; [exact He|].
  exact (proj2 (mount_ignores_case "/api/payments" _ _ He) "/api/payments"
           ltac:(vm_compute; reflexivity)).
Defined.

(** ** Where errors come from *)

Section Errors.

(** As long as no handler forwards an error, only handlers with three
    parameters are called. *)
Lemma handle_calm (stack : list Layer) :
  Forall calm stack → Forall quiet stack →
  ∀ r h lab x,
    Invoke lab x ∈ (Express.handle stack None r h).1 →
    ∃ l, l ∈ stack ∧ label l = lab ∧ plain l.
Proof.
  induction 1 as [|l stack Hl _ IH]; intros Hq r h lab x; simpl.
  - intros Hin. by apply elem_of_nil in Hin.
  - apply Forall_cons in Hq as [Hq1 Hq].
    assert (Hskip : Invoke lab x ∈ (Express.handle stack None r h).1 →
              ∃ l0, l0 ∈ l :: stack ∧ label l0 = lab ∧ plain l0).
    { intros Hin. destruct (IH Hq _ _ _ _ Hin) as (l0 & ? & ? & ?).
      exists l0. split; [by right|done]. }
    destruct (Express.layer_match l _) as [removed|]; [|exact Hskip].
    destruct (Express.call _ _ _ _) as [[evs s]|] eqn:Hc; [|exact Hskip].
    pose proof (Hl _ _ _ _ _ Hc eq_refl) as Hs.
    pose proof (Hq1 _ _ _ _ _ Hc) as Hevs.
    assert (Hplain : plain l).
    { destruct (fn l) as [g|g] eqn:Hf; [by exists g|discriminate Hc]. }
    assert (Hnot : Invoke lab x ∉ evs).
    { intros Hin. assert (lab ∈ called evs) as Hc'.
      { unfold called. apply list_elem_of_omap. by exists (Invoke lab x). }
      rewrite Hevs in Hc'. by apply elem_of_nil in Hc'. }
    assert (Hhere : Invoke lab x = Invoke (label l) (Express.trim_prefix removed r) →
              ∃ l0, l0 ∈ l :: stack ∧ label l0 = lab ∧ plain l0).
    { intros [= -> _]. exists l. split; [by left|done]. }
    assert (Hlater : ∀ r1 h1, Invoke lab x ∈ (Express.handle stack None r1 h1).1 →
              ∃ l0, l0 ∈ l :: stack ∧ label l0 = lab ∧ plain l0).
    { intros r1 h1 Hin. destruct (IH Hq _ _ _ _ Hin) as (l0 & ? & ? & ?).
      exists l0. split; [by right|done]. }
    destruct s as [r1 h1|e r1 h1|resp]; [| done |]; simpl;
      rewrite ?elem_of_cons, ?elem_of_app; intros Hin.
    + destruct Hin as [Hin|[Hin|Hin]]; [eauto | done | eauto].
    + destruct Hin as [Hin|Hin]; [eauto | done].
Qed.

(** In such a run a handler with four parameters is not called. *)
Lemma calm_never_errors (stack : list Layer) (lab : Label) (g : ErrorHandler) :
  Forall calm stack → Forall quiet stack → NoDup (label <$> stack) →
  mkLayer lab None (OnError g) ∈ stack →
  ∀ r h x, Invoke lab x ∉ (Express.handle stack None r h).1.
Proof.
  intros Hc Hq Hnd Hg r h x Hin.
  destruct (handle_calm stack Hc Hq r h lab x Hin) as (l & Hl & Hlab & [f Hf]).
  rewrite (fmap_NoDup_inj label stack l _ Hnd Hl Hg Hlab) in Hf.
  discriminate Hf.
Qed.

Context (W : World).

Lemma app_calm : reliable W → Forall calm (App.app W).
Proof.
  intros (Hfile & Hlog & Hurl & Hjson & Hauth & Hmail & Hpay & Hgql & Hdocs).
  each_layer; handler; try done;
    match goal with
    | Heq : ?d = Fail _ |- _ =>
        assert (Hd : succeeds d) by auto; rewrite Heq in Hd; exact Hd
    | Heq : ?p = ParseError _ |- _ =>
        assert (Hp : parses p) by auto; rewrite Heq in Hp; exact Hp
    end.
Qed.

Lemma errorMiddleware_in_app :
  mkLayer ErrorMiddleware None (OnError (App.errorMiddleware W)) ∈ App.app W.
Proof.
  unfold App.app. rewrite elem_of_app, elem_of_cons, elem_of_app. do 3 right.
  unfold App.terminals. apply list_elem_of_further, list_elem_of_here.
Qed.

(** A request that reaches the routes is no preflight. *)
Lemma arrives_not_preflight (r r' : Request) (t : list Event)
    (h' : gmap string string) :
  arrives W r t r' h' → method r ≠ OPTIONS.
Proof.
  unfold arrives. rewrite handle_app.
  destruct (Express.handle (App.beforeCors W) _ _ _)
    as [t1 [resp|[e|] r1 h1]] eqn:Hpre; [discriminate| |].
  - unfold App.useCors. rewrite handle_plain_error. discriminate.
  - destruct (beforeCors_same W _ _ _ _ _ _ Hpre) as (Hmeth & _).
    rewrite cors_step, <- Hmeth.
    destruct (method r1); try discriminate; intros _ H; discriminate H.
Qed.

End Errors.

(** [app.js] forwards no error of its own: in a world where no
    collaborator fails (static files, request logger, both body parsers,
    the route modules, the GraphQL server and explorer), the error handler
    is never called, for any request.  The token gate is the one of
    section 4.3, which answers a request it refuses itself. *)
Theorem errors_come_from_collaborators (W : World) (r x : Request) :
  reliable W → Invoke ErrorMiddleware x ∉ (App.serve W r).1.
Proof.
  intros Hrel.
  exact (calm_never_errors (App.app W) ErrorMiddleware (App.errorMiddleware W)
           (app_calm W Hrel) (app_quiet W) (app_labels_NoDup W)
           (errorMiddleware_in_app W) r App.initialHeaders x).
Qed.

(** No route sees a preflight: for a request with method OPTIONS only
    layers of lines 24-41 are called, and the error handler if one of them
    fails; no token gate, route handler or unknown-route handler is. *)
Theorem preflight_stops_before_routes (W : World) (r x : Request) (lab : Label) :
  method r = OPTIONS →
  Invoke lab x ∈ (App.serve W r).1 →
  lab ∈ early ∨ lab = ErrorMiddleware.
Proof.
  intros Hm Hin.
  destruct (serve_invoked W r x lab Hin) as [H|[H|(t0 & r' & h' & Harr & _)]];
    [by left|by right|].
  by destruct (arrives_not_preflight W _ _ _ _ Harr).
Qed.

(** In the lenient sample world the error handler is not called, whatever
    the request. *)
Lemma errors_come_from_collaborators_witness :
  reliable lenientWorld ∧
  ∀ r x, Invoke ErrorMiddleware x ∉ (App.serve lenientWorld r).1.
Proof.
  assert (Hrel : reliable lenientWorld).
  { repeat split; intros; cbn; repeat case_match; exact I. }
  split; [exact Hrel|].
  intros r x. exact (errors_come_from_collaborators lenientWorld r x Hrel).
Defined.

(** [OPTIONS /api/graphql] without a token: the call of the CORS layer is
    one of the early calls, and it is the last. *)
Lemma preflight_stops_before_routes_witness :
  let W := Sample.world false in
  let r := incoming OPTIONS "/api/graphql" ∅ EmptyString in
  let x := set_body (Js.Obj []) (set_body (Js.Obj []) (set_cookies (Js.Obj []) r)) in
  Invoke Cors x ∈ (App.serve W r).1 ∧
  (Cors ∈ early ∨ Cors = ErrorMiddleware) ∧
  last (called (App.serve W r).1) = Some Cors.
Proof.
  intros W r x.
  assert (Hin : (App.serve W r).1 !! 8%nat = Some (Invoke Cors x))
    by (vm_compute; reflexivity).
  apply list_elem_of_lookup_2 in Hin.
  split; [exact Hin|].
  split; [exact (preflight_stops_before_routes W r x Cors eq_refl Hin)|].
  vm_compute. reflexivity.
Defined.

(** ** The request logger *)

Section Logger.

Context (W : World).


End Logger.



